(** * PyCoach: the generative service gateway and the session orchestrator

    A shallow embedding of [src/services/geminiService.ts] (the gateway:
    [analyzeCode], [generateLesson], [generateConceptImage],
    [generateConceptVideo], [editConceptImage]) and of the event handlers
    of the [App] component (the orchestrator: [handleGenerateLesson],
    [handleSendMessage], ...).

    The code is asynchronous and talks to a remote provider, to React's
    state store and to the console.  Each function is an interaction
    tree over the events it performs; a handler gives the events their
    meaning on a world made of the React state, the log of everything
    the program did, and an oracle standing for the provider. *)

From Stdlib Require Import String Ascii List ZArith Lia Bool.
From ITree Require Import ITree ITreeFacts Events.State Events.StateFacts.
From Paco Require Import paco.
Import ListNotations.
Import ITreeNotations.
Local Open Scope list_scope.
Local Open Scope string_scope.
Local Open Scope itree_scope.

(** ** JavaScript values

    Strings are sequences of code units below 256 ([String.string]).
    [null] and [undefined] are both the absent value [None]: the code
    only ever tests them for truthiness or stores them. *)

Module JS.

(** [ToBoolean] on [string | null | undefined]: absent and the empty
    string are falsy. *)
Definition truthy (v : option string) : bool :=
  match v with
  | None => false
  | Some s => negb (s =? "")
  end.

(** [ToString] as a template literal applies it: [`${undefined}`] is the
    nine letters. *)
Definition toString (v : option string) : string :=
  match v with
  | None => "undefined"
  | Some s => s
  end.

(** [v || fallback] on a string that may be absent. *)
Definition orElse (v : option string) (fallback : string) : string :=
  if truthy v then toString v else fallback.

(** [ToBoolean] on [boolean | undefined]. *)
Definition truthyb (v : option bool) : bool :=
  match v with
  | Some true => true
  | _ => false
  end.

(** [s.split(sep)] for a separator of one code unit: the pieces between
    the separators, at least one piece. *)
Fixpoint split (sep : ascii) (s : string) : list string :=
  match s with
  | EmptyString => [EmptyString]
  | String c r =>
      if Ascii.eqb c sep then EmptyString :: split sep r
      else match split sep r with
           | h :: t => String c h :: t
           | [] => [String c EmptyString]
           end
  end.

(** [a[i]]: reading past the end of an array is [undefined]. *)
Definition index {A} (a : list A) (i : nat) : option A := nth_error a i.

(** ECMAScript's WhiteSpace and LineTerminator code units (below 256):
    TAB, LF, VT, FF, CR, SP and NBSP. *)
Definition isWhiteSpace (c : ascii) : bool :=
  let n := nat_of_ascii c in
  (n =? 9)%nat || (n =? 10)%nat || (n =? 11)%nat || (n =? 12)%nat
  || (n =? 13)%nat || (n =? 32)%nat || (n =? 160)%nat.

Fixpoint trimStart (s : string) : string :=
  match s with
  | EmptyString => EmptyString
  | String c r => if isWhiteSpace c then trimStart r else s
  end.

Fixpoint rev_string_onto (s acc : string) : string :=
  match s with
  | EmptyString => acc
  | String c r => rev_string_onto r (String c acc)
  end.

Definition rev_string (s : string) : string := rev_string_onto s EmptyString.

Definition trimEnd (s : string) : string :=
  rev_string (trimStart (rev_string s)).

(** [s.trim()]. *)
Definition trim (s : string) : string := trimEnd (trimStart s).

(** The strings [trim] empties. *)
Fixpoint allWhiteSpace (s : string) : bool :=
  match s with
  | EmptyString => true
  | String c r => isWhiteSpace c && allWhiteSpace r
  end.

End JS.

(** ** JSON

    [JSON.parse] is the platform's.  It is modelled by a recursive-descent
    parser of the JSON grammar (RFC 8259, ECMA-404) on a text of code
    units below 256.  A string of the value is the list of its UTF-16
    code units, since an escape can denote any of them; a number keeps its
    lexeme. *)

#[warnings="-register-all"]
Inductive JSON : Type :=
| JNull
| JBool (b : bool)
| JNumber (lexeme : string)
| JString (units : list N)
| JArray (items : list JSON)
| JObject (members : list (list N * JSON)).

Module JSONParse.

Local Open Scope char_scope.

(** The quotation mark, code unit 34. *)
Abbreviation DQ := (Ascii false true false false false true false false).

Definition isWs (c : ascii) : bool :=
  let n := nat_of_ascii c in
  (n =? 32)%nat || (n =? 9)%nat || (n =? 10)%nat || (n =? 13)%nat.

Fixpoint skipWs (s : list ascii) : list ascii :=
  match s with
  | c :: r => if isWs c then skipWs r else s
  | [] => []
  end.

Definition isDigit (c : ascii) : bool :=
  let n := nat_of_ascii c in (48 <=? n)%nat && (n <=? 57)%nat.

Definition hexVal (c : ascii) : option nat :=
  let n := nat_of_ascii c in
  if (48 <=? n)%nat && (n <=? 57)%nat then Some (n - 48)%nat
  else if (65 <=? n)%nat && (n <=? 70)%nat then Some (n - 55)%nat
  else if (97 <=? n)%nat && (n <=? 102)%nat then Some (n - 87)%nat
  else None.

Definition hex4 (a b c d : ascii) : option nat :=
  match hexVal a, hexVal b, hexVal c, hexVal d with
  | Some x, Some y, Some z, Some w =>
      Some (((x * 16 + y) * 16 + z) * 16 + w)%nat
  | _, _, _, _ => None
  end.

(** The characters of a string literal after its opening quote, up to
    the closing quote; [acc] holds what was read, last first. *)
Fixpoint stringBody (s : list ascii) (acc : list N)
  : option (list N * list ascii) :=
  match s with
  | [] => None
  | DQ :: r => Some (rev acc, r)
  | "\" :: r =>
      match r with
      | DQ :: r' => stringBody r' (34%N :: acc)
      | "\" :: r' => stringBody r' (92%N :: acc)
      | "/" :: r' => stringBody r' (47%N :: acc)
      | "b" :: r' => stringBody r' (8%N :: acc)
      | "f" :: r' => stringBody r' (12%N :: acc)
      | "n" :: r' => stringBody r' (10%N :: acc)
      | "r" :: r' => stringBody r' (13%N :: acc)
      | "t" :: r' => stringBody r' (9%N :: acc)
      | "u" :: a :: b :: c :: d :: r' =>
          match hex4 a b c d with
          | Some n => stringBody r' (N.of_nat n :: acc)
          | None => None
          end
      | _ => None
      end
  | c :: r =>
      if (nat_of_ascii c <? 32)%nat then None
      else stringBody r (N_of_ascii c :: acc)
  end.

Fixpoint digits (s : list ascii) : list ascii * list ascii :=
  match s with
  | c :: r =>
      if isDigit c then let '(ds, rest) := digits r in (c :: ds, rest)
      else ([], s)
  | [] => ([], [])
  end.

(** int: [0], or a non-zero digit followed by digits. *)
Definition intPart (s : list ascii) : option (list ascii * list ascii) :=
  match s with
  | "0" :: r => Some (["0"], r)
  | c :: r =>
      if isDigit c then let '(ds, rest) := digits r in Some (c :: ds, rest)
      else None
  | [] => None
  end.

Definition fracPart (s : list ascii) : option (list ascii * list ascii) :=
  match s with
  | "." :: r =>
      match digits r with
      | ([], _) => None
      | (ds, rest) => Some ("." :: ds, rest)
      end
  | _ => Some ([], s)
  end.

Definition expDigits (pre r : list ascii)
  : option (list ascii * list ascii) :=
  match digits r with
  | ([], _) => None
  | (ds, rest) => Some ((pre ++ ds)%list, rest)
  end.

Definition expPart (s : list ascii) : option (list ascii * list ascii) :=
  match s with
  | "e" :: "+" :: r => expDigits ["e"; "+"] r
  | "e" :: "-" :: r => expDigits ["e"; "-"] r
  | "e" :: r => expDigits ["e"] r
  | "E" :: "+" :: r => expDigits ["E"; "+"] r
  | "E" :: "-" :: r => expDigits ["E"; "-"] r
  | "E" :: r => expDigits ["E"] r
  | _ => Some ([], s)
  end.

Definition unsignedNumber (s : list ascii)
  : option (list ascii * list ascii) :=
  match intPart s with
  | None => None
  | Some (i, r1) =>
      match fracPart r1 with
      | None => None
      | Some (f, r2) =>
          match expPart r2 with
          | None => None
          | Some (e, r3) => Some ((i ++ f ++ e)%list, r3)
          end
      end
  end.

Definition number (s : list ascii) : option (JSON * list ascii) :=
  match s with
  | "-" :: r =>
      match unsignedNumber r with
      | Some (l, rest) => Some (JNumber (string_of_list_ascii ("-" :: l)), rest)
      | None => None
      end
  | _ =>
      match unsignedNumber s with
      | Some (l, rest) => Some (JNumber (string_of_list_ascii l), rest)
      | None => None
      end
  end.

(** value, the elements of an array after [[], and the members of an
    object after [{].  Every call spends one unit of [fuel]; two units
    are spent for each code unit read at most. *)
Fixpoint value (fuel : nat) (s : list ascii) : option (JSON * list ascii) :=
  match fuel with
  | O => None
  | S fuel' =>
      match skipWs s with
      | "{" :: r =>
          match skipWs r with
          | "}" :: r' => Some (JObject [], r')
          | r1 => members fuel' r1 []
          end
      | "[" :: r =>
          match skipWs r with
          | "]" :: r' => Some (JArray [], r')
          | r1 => elements fuel' r1 []
          end
      | DQ :: r =>
          match stringBody r [] with
          | Some (str, r') => Some (JString str, r')
          | None => None
          end
      | "t" :: "r" :: "u" :: "e" :: r => Some (JBool true, r)
      | "f" :: "a" :: "l" :: "s" :: "e" :: r => Some (JBool false, r)
      | "n" :: "u" :: "l" :: "l" :: r => Some (JNull, r)
      | r => number r
      end
  end
with elements (fuel : nat) (s : list ascii) (acc : list JSON)
  : option (JSON * list ascii) :=
  match fuel with
  | O => None
  | S fuel' =>
      match value fuel' s with
      | Some (v, r) =>
          match skipWs r with
          | "," :: r' => elements fuel' r' (v :: acc)
          | "]" :: r' => Some (JArray (rev (v :: acc)), r')
          | _ => None
          end
      | None => None
      end
  end
with members (fuel : nat) (s : list ascii) (acc : list (list N * JSON))
  : option (JSON * list ascii) :=
  match fuel with
  | O => None
  | S fuel' =>
      match skipWs s with
      | DQ :: r =>
          match stringBody r [] with
          | Some (key, r1) =>
              match skipWs r1 with
              | ":" :: r2 =>
                  match value fuel' r2 with
                  | Some (v, r3) =>
                      match skipWs r3 with
                      | "," :: r4 => members fuel' r4 ((key, v) :: acc)
                      | "}" :: r4 => Some (JObject (rev ((key, v) :: acc)), r4)
                      | _ => None
                      end
                  | None => None
                  end
              | _ => None
              end
          | None => None
          end
      | _ => None
      end
  end.

(** [JSON.parse(text)]: one value, white space around it, nothing else.
    [None] is the [SyntaxError]. *)
Definition parse (text : string) : option JSON :=
  let s := list_ascii_of_string text in
  match value (2 * List.length s + 4) s with
  | Some (v, rest) =>
      match skipWs rest with
      | [] => Some v
      | _ :: _ => None
      end
  | None => None
  end.

End JSONParse.

(** The code units of a string of the model. *)
Definition unitsOf (s : string) : list N :=
  List.map N_of_ascii (list_ascii_of_string s).

Fixpoint unitsEqb (a b : list N) : bool :=
  match a, b with
  | [], [] => true
  | x :: a', y :: b' => N.eqb x y && unitsEqb a' b'
  | _, _ => false
  end.

(** [o[name]] on a parsed value: the last member of that name of an
    object, absent on anything else. *)
Fixpoint lookupMember (name : list N) (ms : list (list N * JSON)) : option JSON :=
  match ms with
  | [] => None
  | (k, v) :: r =>
      match lookupMember name r with
      | Some v' => Some v'
      | None => if unitsEqb k name then Some v else None
      end
  end.

Definition getField (name : string) (v : JSON) : option JSON :=
  match v with
  | JObject ms => lookupMember (unitsOf name) ms
  | _ => None
  end.

(** A string literal of JSON text: [s] between quotation marks. *)
Definition quoted (s : string) : string :=
  String (ascii_of_nat 34) (s ++ String (ascii_of_nat 34) EmptyString).

(** ** The provider's request and response shapes (the [@google/genai] SDK)

    Only the fields the code writes or reads. *)

Inductive ThinkingLevel := ThinkingLevel_HIGH | ThinkingLevel_LOW.

(** [responseSchema]: the shape the provider is asked to answer in. *)
#[warnings="-register-all"]
Inductive Schema : Type :=
| SchemaString (description : string)
| SchemaArray (items : Schema) (description : string)
| SchemaObject (properties : list (string * Schema)) (required : list string).

(** [{ data, mimeType }] of an inline part. *)
Record InlineData := mkInlineData {
  data : option string;
  mimeType : option string
}.

Record Part := mkPart {
  part_inlineData : option InlineData;
  part_text : option string
}.

(** [contents]: a prompt, or [{ parts: [...] }]. *)
Inductive Contents :=
| ContentsText (prompt : string)
| ContentsParts (parts : list Part).

Record ImageConfig := mkImageConfig {
  ic_aspectRatio : string;
  imageSize : string
}.

Inductive Tool := GoogleSearch.

Record GenerateContentConfig := mkConfig {
  thinkingConfig : option ThinkingLevel;
  responseMimeType : option string;
  responseSchema : option Schema;
  tools : list Tool;
  imageConfig : option ImageConfig
}.

Definition noConfig : GenerateContentConfig :=
  {| thinkingConfig := None; responseMimeType := None; responseSchema := None;
     tools := []; imageConfig := None |}.

Record GenerateContentParameters := mkGenerateContent {
  gc_model : string;
  gc_contents : Contents;
  gc_config : GenerateContentConfig
}.

Record Content := mkContent { parts : option (list Part) }.
Record Candidate := mkCandidate { content : option Content }.

(** [response.text] and [response.candidates]. *)
Record GenerateContentResponse := mkResponse {
  text : option string;
  candidates : option (list Candidate)
}.

Record GenerateVideosConfig := mkVideosConfig {
  numberOfVideos : Z;
  resolution : string;
  vc_aspectRatio : string
}.

Record GenerateVideosParameters := mkGenerateVideos {
  gv_model : string;
  gv_prompt : string;
  gv_config : GenerateVideosConfig
}.

Record Video := mkVideo { uri : option string }.
Record GeneratedVideo := mkGeneratedVideo { video : option Video }.
Record GenerateVideosResponse := mkVideosResponse {
  generatedVideos : option (list GeneratedVideo)
}.

(** The long-running operation handle. *)
Record Operation := mkOperation {
  op_name : string;
  done : option bool;
  response : option GenerateVideosResponse
}.

(** [fetch]'s init, its response and the body read as a blob. *)
Record RequestInit := mkRequestInit {
  method : string;
  headers : list (string * string)
}.
Record FetchResponse := mkFetchResponse { status : Z; body : string }.
Record Blob := mkBlob { bytes : string }.

(** What a rejected promise or a throwing expression raises. *)
Inductive exn :=
| RemoteError (reason : string)
| SyntaxError
| TypeError.

(** The spec's taxonomy of failures; the code raises no [MalformedInput]. *)
Inductive ErrorClass := RemoteErrorClass | SchemaViolation | MalformedInput | Other.

Definition classify (e : exn) : ErrorClass :=
  match e with
  | RemoteError _ => RemoteErrorClass
  | SyntaxError => SchemaViolation
  | TypeError => Other
  end.

(** ** The orchestrator's state: the [useState] cells of [App] *)

Inductive Role := user | model.

Record ChatMessage := mkChatMessage { role : Role; msg_text : string }.

Record AppState := mkAppState {
  currentLesson : option string;
  isLoading : bool;
  code : string;
  analysis : option JSON;
  chatMessages : list ChatMessage;
  chatInput : string;
  lessonTopic : string;
  conceptImage : option string;
  conceptVideo : option string
}.

(** The state [App] starts in. *)
Definition initialState : AppState :=
  {| currentLesson := None;
     isLoading := false;
     code := "print(" ++ quoted "Hello, Python!" ++ ")";
     analysis := None;
     chatMessages := [];
     chatInput := "";
     lessonTopic := "Introduction to Python";
     conceptImage := None;
     conceptVideo := None |}.

(** ** Events

    Every [await] on the provider or the network answers with the value
    or with what the promise was rejected with. *)

Variant appE : Type -> Type :=
| GenerateContent (p : GenerateContentParameters) : appE (exn + GenerateContentResponse)
| GenerateVideos (p : GenerateVideosParameters) : appE (exn + Operation)
| GetVideosOperation (operation : Operation) : appE (exn + Operation)
| SetTimeout (ms : Z) : appE unit
| Fetch (url : string) (init : RequestInit) : appE (exn + FetchResponse)
| ResponseBlob (r : FetchResponse) : appE (exn + Blob)
| CreateObjectURL (b : Blob) : appE string
| ChatSendMessage (message : string) : appE (exn + GenerateContentResponse)
| SetCurrentLesson (v : option string) : appE unit
| SetIsLoading (v : bool) : appE unit
| SetAnalysis (v : option JSON) : appE unit
| SetChatMessages (f : list ChatMessage -> list ChatMessage) : appE unit
| SetChatInput (v : string) : appE unit
| SetLessonTopic (v : string) : appE unit
| SetConceptImage (v : option string) : appE unit
| SetConceptVideo (v : option string) : appE unit
| ConsoleError (label : string) (error : exn) : appE unit.

(** An asynchronous function: it resolves with a value or rejects. *)
Definition async (R : Type) : Type := itree appE (exn + R).

Definition resolve {R} (r : R) : async R := Ret (inr r).
Definition reject {R} (e : exn) : async R := Ret (inl e).

(** [await]: a rejection leaves the function at once. *)
Definition await {A B} (t : async A) (k : A -> async B) : async B :=
  ITree.bind t (fun r => match r with
                         | inl e => reject e
                         | inr a => k a
                         end).

Notation "x <~ t ;; k" := (await t (fun x => k))
  (at level 61, t at next level, right associativity) : itree_scope.

(** [try { body } catch (error) { handler } finally { final }] around a
    body that completes normally or throws. *)
Definition try_catch_finally (body : async unit)
  (handler : exn -> itree appE unit) (final : itree appE unit)
  : itree appE unit :=
  r <- body ;;
  match r with
  | inl error => handler error
  | inr _ => Ret tt
  end ;;
  final.

(** ** The gateway: [services/geminiService.ts] *)

(** A line feed, and the fence of a code block. *)
Definition LF : string := String (ascii_of_nat 10) EmptyString.
Definition fence : string := "```".

(** The schema [analyzeCode] declares, with its four required fields. *)
Definition analysisSchema : Schema :=
  SchemaObject
    [("explanation", SchemaString "A brief explanation of what the code does.");
     ("bugs", SchemaArray (SchemaString "") "List of potential bugs or errors.");
     ("improvements",
       SchemaArray (SchemaString "") "List of style or performance improvements.");
     ("output", SchemaString "Simulated output if the code were to run.")]
    ["explanation"; "bugs"; "improvements"; "output"].

Definition requiredFields : list string :=
  match analysisSchema with
  | SchemaObject _ required => required
  | _ => []
  end.

(** [response.candidates[0].content.parts]: reading a property of
    [undefined], or iterating it, throws a [TypeError]. *)
Definition candidateParts (response : GenerateContentResponse)
  : exn + list Part :=
  match candidates response with
  | None => inl TypeError
  | Some cs =>
      match JS.index cs 0 with
      | None => inl TypeError
      | Some c =>
          match content c with
          | None => inl TypeError
          | Some ct =>
              match parts ct with
              | None => inl TypeError
              | Some ps => inr ps
              end
          end
      end
  end.

(** The loop over the parts that [generateConceptImage] and
    [editConceptImage] share: the first part with inline data, as a data
    URI; [null] when there is none. *)
Fixpoint firstInlineImage (ps : list Part) : option string :=
  match ps with
  | [] => None
  | part :: rest =>
      match part_inlineData part with
      | Some inlineData =>
          Some ("data:image/png;base64," ++ JS.toString (data inlineData))
      | None => firstInlineImage rest
      end
  end.

(** [operation.response?.generatedVideos?.[0]?.video?.uri]. *)
Definition downloadLinkOf (operation : Operation) : option string :=
  match response operation with
  | None => None
  | Some r =>
      match generatedVideos r with
      | None => None
      | Some vs =>
          match JS.index vs 0 with
          | None => None
          | Some gv =>
              match video gv with
              | None => None
              | Some v => uri v
              end
          end
      end
  end.

Section Gateway.

(** [process.env.GEMINI_API_KEY]. *)
Variable apiKey : string.

Definition analyzeCodeRequest (code : string) : GenerateContentParameters :=
  {| gc_model := "gemini-3.1-pro-preview";
     gc_contents := ContentsText
       ("Analyze this Python code for bugs, style improvements, and explain what it does:"
          ++ LF ++ LF ++ fence ++ "python" ++ LF ++ code ++ LF ++ fence);
     gc_config :=
       {| thinkingConfig := Some ThinkingLevel_HIGH;
          responseMimeType := Some "application/json";
          responseSchema := Some analysisSchema;
          tools := [];
          imageConfig := None |} |}.

(** [JSON.parse(response.text)]: a [SyntaxError] when the text is not
    JSON, else the value, whatever it is. *)
Definition analyzeCode (code : string) : async JSON :=
  response <~ ITree.trigger (GenerateContent (analyzeCodeRequest code)) ;;
  match JSONParse.parse (JS.toString (text response)) with
  | Some v => resolve v
  | None => reject SyntaxError
  end.

Definition generateLessonRequest (topic : string) : GenerateContentParameters :=
  {| gc_model := "gemini-3-flash-preview";
     gc_contents := ContentsText
       ("Create a practical Python lesson about: " ++ topic
          ++ ". Include a brief explanation, a code example, and a small exercise for the user.");
     gc_config :=
       {| thinkingConfig := None; responseMimeType := None;
          responseSchema := None; tools := [GoogleSearch];
          imageConfig := None |} |}.

Definition generateLesson (topic : string) : async (option string) :=
  response <~ ITree.trigger (GenerateContent (generateLessonRequest topic)) ;;
  resolve (text response).

Definition generateConceptImageRequest (concept : string)
  : GenerateContentParameters :=
  {| gc_model := "gemini-3.1-flash-image-preview";
     gc_contents := ContentsParts
       [ {| part_inlineData := None;
            part_text := Some
              ("A clean, educational diagram or illustration explaining the Python concept: "
                 ++ concept
                 ++ ". Minimalist style, high contrast, suitable for a learning dashboard.") |} ];
     gc_config :=
       {| thinkingConfig := None; responseMimeType := None;
          responseSchema := None; tools := [];
          imageConfig := Some {| ic_aspectRatio := "16:9"; imageSize := "1K" |} |} |}.

Definition generateConceptImage (concept : string) : async (option string) :=
  response <~ ITree.trigger (GenerateContent (generateConceptImageRequest concept)) ;;
  match candidateParts response with
  | inl e => reject e
  | inr ps => resolve (firstInlineImage ps)
  end.

Definition generateVideosRequest (concept : string) : GenerateVideosParameters :=
  {| gv_model := "veo-3.1-fast-generate-preview";
     gv_prompt := "An educational animation explaining the Python concept: "
                    ++ concept
                    ++ ". Clear, minimalist, professional motion graphics.";
     gv_config := {| numberOfVideos := 1; resolution := "720p";
                     vc_aspectRatio := "16:9" |} |}.

(** One turn of [while (!operation.done)]: leave with the operation when
    it is done, else wait five seconds and ask again. *)
Definition pollOnce (operation : Operation)
  : itree appE (Operation + (exn + Operation)) :=
  if JS.truthyb (done operation) then Ret (inr (inr operation))
  else
    ITree.trigger (SetTimeout 5000) ;;
    r <- ITree.trigger (GetVideosOperation operation) ;;
    match r with
    | inl e => Ret (inr (inl e))
    | inr operation' => Ret (inl operation')
    end.

Definition pollUntilDone (operation : Operation) : async Operation :=
  ITree.iter pollOnce operation.

Definition fetchInit : RequestInit :=
  {| method := "GET"; headers := [("x-goog-api-key", apiKey)] |}.

Definition generateConceptVideo (concept : string) : async (option string) :=
  operation <~ ITree.trigger (GenerateVideos (generateVideosRequest concept)) ;;
  operation <~ pollUntilDone operation ;;
  let downloadLink := downloadLinkOf operation in
  if negb (JS.truthy downloadLink) then resolve None
  else
    response <~ ITree.trigger (Fetch (JS.toString downloadLink) fetchInit) ;;
    blob <~ ITree.trigger (ResponseBlob response) ;;
    url <- ITree.trigger (CreateObjectURL blob) ;;
    resolve (Some url).

Definition editConceptImageRequest (base64Image prompt : string)
  : GenerateContentParameters :=
  {| gc_model := "gemini-2.5-flash-image";
     gc_contents := ContentsParts
       [ {| part_inlineData := Some
              {| data := JS.index (JS.split "," base64Image) 1;
                 mimeType := Some "image/png" |};
            part_text := None |};
         {| part_inlineData := None; part_text := Some prompt |} ];
     gc_config := noConfig |}.

Definition editConceptImage (base64Image prompt : string)
  : async (option string) :=
  response <~ ITree.trigger (GenerateContent (editConceptImageRequest base64Image prompt)) ;;
  match candidateParts response with
  | inl e => reject e
  | inr ps => resolve (firstInlineImage ps)
  end.

(** [tutorChat.sendMessage({ message })] on the session created at start. *)
Definition tutorChat_sendMessage (message : string)
  : async GenerateContentResponse :=
  ITree.trigger (ChatSendMessage message).

End Gateway.

(** ** The orchestrator: the handlers of [App]

    A handler is a closure of one render: it reads the state [s] of that
    render and writes through the setters. *)

Section Orchestrator.

Variable apiKey : string.

Definition handleEditIllustration (s : AppState) (prompt : string)
  : itree appE unit :=
  match conceptImage s with
  | None => Ret tt
  | Some image =>
      if negb (JS.truthy (Some image)) then Ret tt
      else
        ITree.trigger (SetIsLoading true) ;;
        try_catch_finally
          (edited <~ editConceptImage image prompt ;;
           ITree.trigger (SetConceptImage edited) ;;
           resolve tt)
          (fun error => ITree.trigger (ConsoleError "Error editing image:" error))
          (ITree.trigger (SetIsLoading false))
  end.

Definition handleGenerateIllustration (s : AppState) : itree appE unit :=
  ITree.trigger (SetIsLoading true) ;;
  try_catch_finally
    (img <~ generateConceptImage (lessonTopic s) ;;
     ITree.trigger (SetConceptImage img) ;;
     resolve tt)
    (fun error => ITree.trigger (ConsoleError "Error generating image:" error))
    (ITree.trigger (SetIsLoading false)).

Definition handleGenerateVideo (s : AppState) : itree appE unit :=
  ITree.trigger (SetIsLoading true) ;;
  try_catch_finally
    (videoUrl <~ generateConceptVideo apiKey (lessonTopic s) ;;
     ITree.trigger (SetConceptVideo videoUrl) ;;
     resolve tt)
    (fun error => ITree.trigger (ConsoleError "Error generating video:" error))
    (ITree.trigger (SetIsLoading false)).

Definition handleGenerateLesson (s : AppState) (topic : string)
  : itree appE unit :=
  ITree.trigger (SetIsLoading true) ;;
  ITree.trigger (SetConceptImage None) ;;
  ITree.trigger (SetConceptVideo None) ;;
  try_catch_finally
    (lesson <~ generateLesson topic ;;
     ITree.trigger (SetCurrentLesson lesson) ;;
     ITree.trigger (SetLessonTopic topic) ;;
     resolve tt)
    (fun error => ITree.trigger (ConsoleError "Error generating lesson:" error))
    (ITree.trigger (SetIsLoading false)).

Definition handleAnalyzeCode (s : AppState) : itree appE unit :=
  ITree.trigger (SetIsLoading true) ;;
  try_catch_finally
    (result <~ analyzeCode (code s) ;;
     ITree.trigger (SetAnalysis (Some result)) ;;
     resolve tt)
    (fun error => ITree.trigger (ConsoleError "Error analyzing code:" error))
    (ITree.trigger (SetIsLoading false)).

Definition handleSendMessage (s : AppState) : itree appE unit :=
  if negb (JS.truthy (Some (JS.trim (chatInput s)))) then Ret tt
  else
    let userMsg := {| role := user; msg_text := chatInput s |} in
    ITree.trigger (SetChatMessages (fun prev => (prev ++ [userMsg])%list)) ;;
    ITree.trigger (SetChatInput "") ;;
    ITree.trigger (SetIsLoading true) ;;
    try_catch_finally
      (response <~ tutorChat_sendMessage (chatInput s) ;;
       ITree.trigger (SetChatMessages (fun prev =>
         (prev ++ [ {| role := model;
                       msg_text := JS.orElse (text response) "No response" |} ])%list)) ;;
       resolve tt)
      (fun error => ITree.trigger (ConsoleError "Error in chat:" error))
      (ITree.trigger (SetIsLoading false)).

End Orchestrator.

(** ** Running a flow

    The provider is an oracle: what each remote call answers.  Only the
    status query is repeated within a flow, so its answer may depend on how
    many queries came before. *)

Record Provider := mkProvider {
  generateContent : GenerateContentParameters -> exn + GenerateContentResponse;
  generateVideos : GenerateVideosParameters -> exn + Operation;
  getVideosOperation : nat -> Operation -> exn + Operation;
  fetch : string -> RequestInit -> exn + FetchResponse;
  blob : FetchResponse -> exn + Blob;
  createObjectURL : Blob -> string;
  sendMessage : string -> exn + GenerateContentResponse
}.

(** One entry of the log: an event the program performed. *)
Inductive Action : Type :=
| Act : forall X : Type, appE X -> Action.
Arguments Act {X} e.

(** The world a flow runs in: React's state, the log of what was done so
    far (oldest first), and the number of status queries answered. *)
Record World := mkWorld {
  app : AppState;
  log : list Action;
  polls : nat
}.

Definition setApp (f : AppState -> AppState) (w : World) : World :=
  {| app := f (app w); log := log w; polls := polls w |}.

Definition record_ {X} (e : appE X) (w : World) : World :=
  {| app := app w; log := (log w ++ [Act e])%list; polls := polls w |}.

Definition countPoll (w : World) : World :=
  {| app := app w; log := log w; polls := S (polls w) |}.

Definition with_currentLesson v (s : AppState) : AppState :=
  {| currentLesson := v; isLoading := isLoading s; code := code s;
     analysis := analysis s; chatMessages := chatMessages s;
     chatInput := chatInput s; lessonTopic := lessonTopic s;
     conceptImage := conceptImage s; conceptVideo := conceptVideo s |}.

Definition with_isLoading v (s : AppState) : AppState :=
  {| currentLesson := currentLesson s; isLoading := v; code := code s;
     analysis := analysis s; chatMessages := chatMessages s;
     chatInput := chatInput s; lessonTopic := lessonTopic s;
     conceptImage := conceptImage s; conceptVideo := conceptVideo s |}.

Definition with_analysis v (s : AppState) : AppState :=
  {| currentLesson := currentLesson s; isLoading := isLoading s; code := code s;
     analysis := v; chatMessages := chatMessages s;
     chatInput := chatInput s; lessonTopic := lessonTopic s;
     conceptImage := conceptImage s; conceptVideo := conceptVideo s |}.

Definition with_chatMessages v (s : AppState) : AppState :=
  {| currentLesson := currentLesson s; isLoading := isLoading s; code := code s;
     analysis := analysis s; chatMessages := v;
     chatInput := chatInput s; lessonTopic := lessonTopic s;
     conceptImage := conceptImage s; conceptVideo := conceptVideo s |}.

Definition with_chatInput v (s : AppState) : AppState :=
  {| currentLesson := currentLesson s; isLoading := isLoading s; code := code s;
     analysis := analysis s; chatMessages := chatMessages s;
     chatInput := v; lessonTopic := lessonTopic s;
     conceptImage := conceptImage s; conceptVideo := conceptVideo s |}.

Definition with_lessonTopic v (s : AppState) : AppState :=
  {| currentLesson := currentLesson s; isLoading := isLoading s; code := code s;
     analysis := analysis s; chatMessages := chatMessages s;
     chatInput := chatInput s; lessonTopic := v;
     conceptImage := conceptImage s; conceptVideo := conceptVideo s |}.

Definition with_conceptImage v (s : AppState) : AppState :=
  {| currentLesson := currentLesson s; isLoading := isLoading s; code := code s;
     analysis := analysis s; chatMessages := chatMessages s;
     chatInput := chatInput s; lessonTopic := lessonTopic s;
     conceptImage := v; conceptVideo := conceptVideo s |}.

Definition with_conceptVideo v (s : AppState) : AppState :=
  {| currentLesson := currentLesson s; isLoading := isLoading s; code := code s;
     analysis := analysis s; chatMessages := chatMessages s;
     chatInput := chatInput s; lessonTopic := lessonTopic s;
     conceptImage := conceptImage s; conceptVideo := v |}.

Section Run.

Variable env : Provider.

(** What one event does to the world, and what it answers.  Every event
    is logged; a setter writes its cell ([setChatMessages] applies its
    updater to the stored transcript); a remote call asks the oracle. *)
Definition step {X} (e : appE X) (w : World) : World * X :=
  let w' := record_ e w in
  match e in appE X return World * X with
  | GenerateContent p => (w', generateContent env p)
  | GenerateVideos p => (w', generateVideos env p)
  | GetVideosOperation operation =>
      (countPoll w', getVideosOperation env (polls w) operation)
  | SetTimeout _ => (w', tt)
  | Fetch url init => (w', fetch env url init)
  | ResponseBlob r => (w', blob env r)
  | CreateObjectURL b => (w', createObjectURL env b)
  | ChatSendMessage message => (w', sendMessage env message)
  | SetCurrentLesson v => (setApp (with_currentLesson v) w', tt)
  | SetIsLoading v => (setApp (with_isLoading v) w', tt)
  | SetAnalysis v => (setApp (with_analysis v) w', tt)
  | SetChatMessages f =>
      (setApp (fun s => with_chatMessages (f (chatMessages s)) s) w', tt)
  | SetChatInput v => (setApp (with_chatInput v) w', tt)
  | SetLessonTopic v => (setApp (with_lessonTopic v) w', tt)
  | SetConceptImage v => (setApp (with_conceptImage v) w', tt)
  | SetConceptVideo v => (setApp (with_conceptVideo v) w', tt)
  | ConsoleError _ _ => (w', tt)
  end.

Definition handle : appE ~> Monads.stateT World (itree void1) :=
  fun _ e w => Ret (step e w).

(** The run of a program from a world: it diverges, or ends in a world
    with a result. *)
Definition run {R} (t : itree appE R) (w : World) : itree void1 (World * R) :=
  interp_state handle t w.

(** [t] run from [w] ends in [w'] with [r]. *)
Definition ends {R} (t : itree appE R) (w w' : World) (r : R) : Prop :=
  run t w ≈ Ret (w', r).

(** The same run, computed: [fuel] bounds the events and silent steps
    taken; [None] when they do not suffice. *)
Fixpoint runFor {R} (fuel : nat) (t : itree appE R) (w : World)
  : option (World * R) :=
  match fuel with
  | O => None
  | S fuel' =>
      match observe t with
      | RetF r => Some (w, r)
      | TauF t' => runFor fuel' t' w
      | VisF e k => let '(w', x) := step e w in runFor fuel' (k x) w'
      end
  end.

End Run.

(** ** Which events are remote calls *)

Definition isRemoteCall (a : Action) : bool :=
  match a with
  | Act e =>
      match e with
      | GenerateContent _ | GenerateVideos _ | GetVideosOperation _
      | Fetch _ _ | ResponseBlob _ | ChatSendMessage _ => true
      | _ => false
      end
  end.

Definition isTimeout (a : Action) : bool :=
  match a with
  | Act (SetTimeout _) => true
  | _ => false
  end.

Definition isFetch (a : Action) : bool :=
  match a with
  | Act (Fetch _ _) => true
  | _ => false
  end.

Definition isSetter (a : Action) : bool :=
  match a with
  | Act e =>
      match e with
      | SetCurrentLesson _ | SetIsLoading _ | SetAnalysis _ | SetChatMessages _
      | SetChatInput _ | SetLessonTopic _ | SetConceptImage _
      | SetConceptVideo _ => true
      | _ => false
      end
  end.

Definition isConsoleError (a : Action) : bool :=
  match a with
  | Act (ConsoleError _ _) => true
  | _ => false
  end.

(** ** Notions the properties are stated with *)

Local Open Scope list_scope.

(** A world with nothing logged yet. *)
Definition worldOf (s : AppState) : World :=
  {| app := s; log := []; polls := 0 |}.

(** The string has a comma: the delimiter of a data URI. *)
Fixpoint hasComma (s : string) : bool :=
  match s with
  | EmptyString => false
  | String c r => Ascii.eqb c "," || hasComma r
  end.

(** Every remote call of the log is made while the busy flag is set;
    [busy] is the flag where the log starts. *)
Fixpoint callsWhileBusy (busy : bool) (l : list Action) : bool :=
  match l with
  | [] => true
  | Act (SetIsLoading v) :: r => callsWhileBusy v r
  | a :: r => (negb (isRemoteCall a) || busy) && callsWhileBusy busy r
  end.

(** What the log holds after its first remote call. *)
Fixpoint afterFirstCall (l : list Action) : list Action :=
  match l with
  | [] => []
  | a :: r => if isRemoteCall a then r else afterFirstCall r
  end.

(** What the provider makes of the status queries, as far as [fuel]
    queries go: from query number [k] and operation [operation], the
    number of the next query, the operation that reported done or the
    error of the query that failed, and the waits and queries made. *)
Fixpoint pollTrace (env : Provider) (fuel k : nat) (operation : Operation)
  : option (nat * (exn + Operation) * list Action) :=
  if JS.truthyb (done operation) then Some (k, inr operation, [])
  else
    match fuel with
    | O => None
    | S fuel' =>
        match getVideosOperation env k operation with
        | inl e =>
            Some (S k, inl e,
                  [Act (SetTimeout 5000); Act (GetVideosOperation operation)])
        | inr operation' =>
            match pollTrace env fuel' (S k) operation' with
            | Some (k', r, l) =>
                Some (k', r,
                      Act (SetTimeout 5000) :: Act (GetVideosOperation operation) :: l)
            | None => None
            end
        end
    end.

(** An entry that writes no state and reports no error. *)
Definition quiet (a : Action) : bool :=
  negb (isSetter a) && negb (isConsoleError a).

(** The part with the MIME type of its inline data replaced by [m]. *)
Definition relabelMime (m : option string) (part : Part) : Part :=
  {| part_inlineData :=
       match part_inlineData part with
       | Some d => Some {| data := data d; mimeType := m |}
       | None => None
       end;
     part_text := part_text part |}.

(** The response with every inline part relabelled. *)
Definition relabelResponse (m : option string)
  (response : GenerateContentResponse) : GenerateContentResponse :=
  {| text := text response;
     candidates :=
       option_map
         (List.map (fun c =>
            {| content :=
                 option_map
                   (fun ct =>
                      {| parts := option_map (List.map (relabelMime m)) (parts ct) |})
                   (content c) |}))
         (candidates response) |}.

(** What the two image functions make of the provider's answer. *)
Definition imageOutcome (answer : exn + GenerateContentResponse)
  : exn + option string :=
  match answer with
  | inl e => inl e
  | inr response =>
      match candidateParts response with
      | inl e => inl e
      | inr ps => inr (firstInlineImage ps)
      end
  end.

(** What [analyzeCode] makes of the provider's answer. *)
Definition analysisOutcome (answer : exn + GenerateContentResponse)
  : exn + JSON :=
  match answer with
  | inl e => inl e
  | inr response =>
      match JSONParse.parse (JS.toString (text response)) with
      | Some v => inr v
      | None => inl SyntaxError
      end
  end.

(** What [generateConceptVideo] does once the polling is over with [r]:
    its outcome, and the calls it makes to get there. *)
Definition afterPolling (env : Provider) (apiKey : string)
  (r : exn + Operation) : (exn + option string) * list Action :=
  match r with
  | inl e => (inl e, [])
  | inr operation =>
      let downloadLink := downloadLinkOf operation in
      if negb (JS.truthy downloadLink) then (inr None, [])
      else
        let url := JS.toString downloadLink in
        let init := fetchInit apiKey in
        match fetch env url init with
        | inl e => (inl e, [Act (Fetch url init)])
        | inr served =>
            match blob env served with
            | inl e => (inl e, [Act (Fetch url init); Act (ResponseBlob served)])
            | inr b =>
                (inr (Some (createObjectURL env b)),
                 [Act (Fetch url init); Act (ResponseBlob served);
                  Act (CreateObjectURL b)])
            end
        end
  end.

(** The flows of the orchestrator that call the provider, as the
    interface binds them to its controls. *)
Inductive Flow :=
| LessonFlow (topic : string)
| IllustrationFlow
| IllustrationEditFlow (prompt : string)
| VideoFlow
| AnalysisFlow
| ChatSendFlow.

Definition handlerOf (apiKey : string) (f : Flow) (s : AppState)
  : itree appE unit :=
  match f with
  | LessonFlow topic => handleGenerateLesson s topic
  | IllustrationFlow => handleGenerateIllustration s
  | IllustrationEditFlow prompt => handleEditIllustration s prompt
  | VideoFlow => handleGenerateVideo apiKey s
  | AnalysisFlow => handleAnalyzeCode s
  | ChatSendFlow => handleSendMessage s
  end.

(** The flow gets to its remote call (its guard lets it through), and the
    call comes back: for the video, the operation is reported done, or a
    query fails, after finitely many queries. *)
Definition performsCall (env : Provider) (f : Flow) (w : World) : Prop :=
  match f with
  | IllustrationEditFlow _ => JS.truthy (conceptImage (app w)) = true
  | ChatSendFlow => JS.truthy (Some (JS.trim (chatInput (app w)))) = true
  | VideoFlow =>
      match generateVideos env (generateVideosRequest (lessonTopic (app w))) with
      | inl _ => True
      | inr operation =>
          exists fuel, pollTrace env fuel (polls w) operation <> None
      end
  | _ => True
  end.

(** The words a flow gives [console.error] with the error it caught. *)
Definition labelOf (f : Flow) : string :=
  match f with
  | LessonFlow _ => "Error generating lesson:"
  | IllustrationFlow => "Error generating image:"
  | IllustrationEditFlow _ => "Error editing image:"
  | VideoFlow => "Error generating video:"
  | AnalysisFlow => "Error analyzing code:"
  | ChatSendFlow => "Error in chat:"
  end.

(** An outcome without its value: that it succeeded, or the error. *)
Definition erase {A} (r : exn + A) : exn + unit :=
  match r with
  | inl e => inl e
  | inr _ => inr tt
  end.

(** The gateway operation that the flow [f] of a render with state [s]
    calls, run from [w1], comes back in [w2] with the outcome [o]. *)
Definition operationEnds (env : Provider) (apiKey : string) (f : Flow)
  (s : AppState) (w1 w2 : World) (o : exn + unit) : Prop :=
  match f with
  | LessonFlow topic =>
      exists r, ends env (generateLesson topic) w1 w2 r /\ erase r = o
  | IllustrationFlow =>
      exists r, ends env (generateConceptImage (lessonTopic s)) w1 w2 r /\ erase r = o
  | IllustrationEditFlow prompt =>
      exists r, ends env (editConceptImage (JS.toString (conceptImage s)) prompt) w1 w2 r
                /\ erase r = o
  | VideoFlow =>
      exists r, ends env (generateConceptVideo apiKey (lessonTopic s)) w1 w2 r
                /\ erase r = o
  | AnalysisFlow =>
      exists r, ends env (analyzeCode (code s)) w1 w2 r /\ erase r = o
  | ChatSendFlow =>
      exists r, ends env (tutorChat_sendMessage (chatInput s)) w1 w2 r /\ erase r = o
  end.

(** What the log holds before its first remote call. *)
Fixpoint beforeFirstCall (l : list Action) : list Action :=
  match l with
  | [] => []
  | a :: r => if isRemoteCall a then [] else a :: beforeFirstCall r
  end.

(** What the log holds before and after the busy flag is first set. *)
Fixpoint beforeBusy (l : list Action) : list Action :=
  match l with
  | [] => []
  | Act (SetIsLoading true) :: _ => []
  | a :: r => a :: beforeBusy r
  end.

Fixpoint afterBusy (l : list Action) : list Action :=
  match l with
  | [] => []
  | Act (SetIsLoading true) :: r => r
  | _ :: r => afterBusy r
  end.

(** What a logged setter wrote, and the state a log's setters make of a
    state, oldest first. *)
Definition write (a : Action) (s : AppState) : AppState :=
  match a with
  | Act e =>
      match e with
      | SetCurrentLesson v => with_currentLesson v s
      | SetIsLoading v => with_isLoading v s
      | SetAnalysis v => with_analysis v s
      | SetChatMessages f => with_chatMessages (f (chatMessages s)) s
      | SetChatInput v => with_chatInput v s
      | SetLessonTopic v => with_lessonTopic v s
      | SetConceptImage v => with_conceptImage v s
      | SetConceptVideo v => with_conceptVideo v s
      | _ => s
      end
  end.

Definition writes (l : list Action) (s : AppState) : AppState :=
  fold_left (fun s' a => write a s') l s.

(** ** Scenarios *)

(** A provider no call reaches. *)
Definition offline : Provider :=
  {| generateContent := fun _ => inl (RemoteError "offline");
     generateVideos := fun _ => inl (RemoteError "offline");
     getVideosOperation := fun _ _ => inl (RemoteError "offline");
     fetch := fun _ _ => inl (RemoteError "offline");
     blob := fun _ => inl (RemoteError "offline");
     createObjectURL := fun b => ("blob:" ++ bytes b)%string;
     sendMessage := fun _ => inl (RemoteError "offline") |}.

(** A provider that answers every content request with [r]. *)
Definition answering (r : exn + GenerateContentResponse) : Provider :=
  {| generateContent := fun _ => r;
     generateVideos := generateVideos offline;
     getVideosOperation := getVideosOperation offline;
     fetch := fetch offline;
     blob := blob offline;
     createObjectURL := createObjectURL offline;
     sendMessage := sendMessage offline |}.

(** A response whose text is [t] and that has no candidates. *)
Definition textResponse (t : string) : GenerateContentResponse :=
  {| text := Some t; candidates := None |}.

(** A response with one candidate made of the parts [ps]. *)
Definition partsResponse (ps : list Part) : GenerateContentResponse :=
  {| text := None;
     candidates := Some [ {| content := Some {| parts := Some ps |} |} ] |}.

Definition imagePart (mime payload : string) : Part :=
  {| part_inlineData := Some {| data := Some payload; mimeType := Some mime |};
     part_text := None |}.

Definition textPart (t : string) : Part :=
  {| part_inlineData := None; part_text := Some t |}.

(** JSON text that parses and has one of the four required fields. *)
Definition partialAnalysisText : string :=
  ("{" ++ quoted "explanation" ++ ":" ++ quoted "prints x" ++ "}")%string.

(** The three reports of a video operation that is done at the second
    status query, and a provider that gives them and serves the video. *)
Definition pendingOperation : Operation :=
  {| op_name := "operations/1"; done := None; response := None |}.

Definition runningOperation : Operation :=
  {| op_name := "operations/1"; done := Some false; response := None |}.

Definition finishedOperation (link : option string) : Operation :=
  {| op_name := "operations/1"; done := Some true;
     response := Some {| generatedVideos :=
                           Some [ {| video := Some {| uri := link |} |} ] |} |}.

Definition servedVideo : FetchResponse := {| status := 200; body := "mp4" |}.

Definition videoProvider (link : option string) : Provider :=
  {| generateContent := generateContent offline;
     generateVideos := fun _ => inr pendingOperation;
     getVideosOperation := fun k _ =>
       match k with
       | O => inr runningOperation
       | _ => inr (finishedOperation link)
       end;
     fetch := fun _ _ => inr servedVideo;
     blob := fun r => inr {| bytes := body r |};
     createObjectURL := createObjectURL offline;
     sendMessage := sendMessage offline |}.

(** The state of a session with an illustration on screen, and of one
    with a chat message typed. *)
Definition withIllustration (image : string) : AppState :=
  with_conceptImage (Some image) initialState.

Definition withChatInput (input : string) : AppState :=
  with_chatInput input initialState.

(** A provider that answers JSON text with one of the required fields. *)
Definition partialProvider : Provider :=
  answering (inr (textResponse partialAnalysisText)).

Definition partialAnalysis : JSON :=
  JObject [(unitsOf "explanation", JString (unitsOf "prints x"))].

(** A provider that answers with one inline image it reports as JPEG. *)
Definition jpegProvider : Provider :=
  answering (inr (partsResponse [imagePart "image/jpeg" "BBBB"])).

(** A provider that answers with text and no image. *)
Definition wordsProvider : Provider :=
  answering (inr (partsResponse [textPart "I cannot edit this image."])).

(** ** The rest of [App]: the effect on the view and the transcription *)

Inductive View := lessons | playground | chat | voice.

Definition isLessons (v : View) : bool :=
  match v with
  | lessons => true
  | _ => false
  end.

(** The body of [useEffect(..., [currentView])]: React runs it after the
    first render and after every render in which [currentView] changed.
    The handler it calls catches everything, so nothing is left
    unhandled. *)
Definition lessonsEffect (currentView : View) (s : AppState) : itree appE unit :=
  if isLessons currentView && negb (JS.truthy (currentLesson s))
  then handleGenerateLesson s "Introduction to Python"
  else Ret tt.

(** [setIsTranscribing], the one setter [handleTranscribe] has of its own. *)
Variant transcribeE : Type -> Type :=
| SetIsTranscribing (v : bool) : transcribeE unit.

(** [try { body } finally { final }]: the outcome of the body, after
    [final]. *)
Definition try_finally {E : Type -> Type} {R} (body : itree E (exn + R))
  (final : itree E unit) : itree E (exn + R) :=
  r <- body ;;
  final ;;
  Ret r.

(** The question the simulated transcription types. *)
Definition cannedQuestion : string := "How do I use list comprehensions in Python?".

Definition handleTranscribe : itree (appE +' transcribeE) (exn + unit) :=
  ITree.trigger (inr1 (SetIsTranscribing true)) ;;
  try_finally
    (ITree.trigger (inl1 (SetTimeout 2000)) ;;
     ITree.trigger (inl1 (SetChatInput cannedQuestion)) ;;
     Ret (inr tt))
    (ITree.trigger (inr1 (SetIsTranscribing false))).

(** The world with the cell [isTranscribing] beside it. *)
Record Session := mkSession {
  world : World;
  isTranscribing : bool
}.

Section RunSession.

Variable env : Provider.

Definition stepSession {X} (e : (appE +' transcribeE) X) (ss : Session)
  : Session * X :=
  match e with
  | inl1 a =>
      let '(w', x) := step env a (world ss) in
      ({| world := w'; isTranscribing := isTranscribing ss |}, x)
  | inr1 t =>
      match t in transcribeE X return Session * X with
      | SetIsTranscribing v => ({| world := world ss; isTranscribing := v |}, tt)
      end
  end.

Definition handleSession
  : (appE +' transcribeE) ~> Monads.stateT Session (itree void1) :=
  fun _ e ss => Ret (stepSession e ss).

Definition endsSession {R} (t : itree (appE +' transcribeE) R)
  (ss ss' : Session) (r : R) : Prop :=
  interp_state handleSession t ss ≈ Ret (ss', r).

Fixpoint runSessionFor {R} (fuel : nat) (t : itree (appE +' transcribeE) R)
  (ss : Session) : option (Session * R) :=
  match fuel with
  | O => None
  | S fuel' =>
      match observe t with
      | RetF r => Some (ss, r)
      | TauF t' => runSessionFor fuel' t' ss
      | VisF e k =>
          let '(ss', x) := stepSession e ss in runSessionFor fuel' (k x) ss'
      end
  end.

End RunSession.

(** ** More notions *)

Definition isStatusQuery (a : Action) : bool :=
  match a with
  | Act (GetVideosOperation _) => true
  | _ => false
  end.

(** The silent steps of a run with no events left, up to [n]: its result
    when it has one by then. *)
Fixpoint forced {R} (n : nat) (t : itree void1 R) : option R :=
  match observe t with
  | RetF r => Some r
  | TauF t' =>
      match n with
      | O => None
      | S n' => forced n' t'
      end
  | VisF e _ => match e with end
  end.

(** A part without inline data. *)
Definition noInlineData (part : Part) : bool :=
  match part_inlineData part with
  | None => true
  | Some _ => false
  end.

(** Every part of every candidate of a response, and whether one of them
    carries inline data. *)
Definition allParts (response : GenerateContentResponse) : list Part :=
  match candidates response with
  | None => []
  | Some cs =>
      flat_map (fun c => match content c with
                         | None => []
                         | Some ct => match parts ct with
                                      | None => []
                                      | Some ps => ps
                                      end
                         end) cs
  end.

Definition hasInlineImage (response : GenerateContentResponse) : bool :=
  existsb (fun part => negb (noInlineData part)) (allParts response).

(** The provider whose answers to [generateContent] have every inline part
    relabelled. *)
Definition relabelProvider (m : option string) (env : Provider) : Provider :=
  {| generateContent := fun req =>
       match generateContent env req with
       | inl e => inl e
       | inr response => inr (relabelResponse m response)
       end;
     generateVideos := generateVideos env;
     getVideosOperation := getVideosOperation env;
     fetch := fetch env;
     blob := blob env;
     createObjectURL := createObjectURL env;
     sendMessage := sendMessage env |}.

(** A provider that answers with text and no candidates. *)
Definition textOnlyProvider : Provider :=
  answering (inr (textResponse "I cannot edit this image.")).

(** A provider whose video operation is never done. *)
Definition stuckProvider : Provider :=
  {| generateContent := generateContent offline;
     generateVideos := fun _ => inr pendingOperation;
     getVideosOperation := fun _ _ => inr runningOperation;
     fetch := fetch offline;
     blob := blob offline;
     createObjectURL := createObjectURL offline;
     sendMessage := sendMessage offline |}.

(** A provider whose video operation is done at once, with the link
    [link]. *)
Definition promptProvider (link : option string) : Provider :=
  {| generateContent := generateContent offline;
     generateVideos := fun _ => inr (finishedOperation link);
     getVideosOperation := getVideosOperation offline;
     fetch := fun _ _ => inr servedVideo;
     blob := fun r => inr {| bytes := body r |};
     createObjectURL := createObjectURL offline;
     sendMessage := sendMessage offline |}.

(** A provider whose first status query fails. *)
Definition flakyProvider : Provider :=
  {| generateContent := generateContent offline;
     generateVideos := fun _ => inr pendingOperation;
     getVideosOperation := getVideosOperation offline;
     fetch := fetch offline;
     blob := blob offline;
     createObjectURL := createObjectURL offline;
     sendMessage := sendMessage offline |}.

(** A provider that serves no video: the fetch fails. *)
Definition unservedProvider : Provider :=
  {| generateContent := generateContent offline;
     generateVideos := fun _ => inr (finishedOperation (Some "https://videos.example/1"%string));
     getVideosOperation := getVideosOperation offline;
     fetch := fetch offline;
     blob := blob offline;
     createObjectURL := createObjectURL offline;
     sendMessage := sendMessage offline |}.

(** A provider whose tutor answers [r]. *)
Definition tutoring (r : exn + GenerateContentResponse) : Provider :=
  {| generateContent := generateContent offline;
     generateVideos := generateVideos offline;
     getVideosOperation := getVideosOperation offline;
     fetch := fetch offline;
     blob := blob offline;
     createObjectURL := createObjectURL offline;
     sendMessage := fun _ => r |}.

(** The state of a session with a video on screen, with an analysis, and
    with a lesson. *)
Definition withVideo (url : string) : AppState :=
  with_conceptVideo (Some url) initialState.

Definition withAnalysis (v : JSON) : AppState :=
  with_analysis (Some v) initialState.

Definition withLesson (lesson : string) : AppState :=
  with_currentLesson (Some lesson) initialState.

(** * Facts *)

(** ** Strings *)

Lemma trimStart_allWhiteSpace (s : string) :
  JS.allWhiteSpace s = true -> JS.trimStart s = EmptyString.
Proof.
  induction s as [| c r IH]; cbn; [reflexivity |].
  destruct (JS.isWhiteSpace c); cbn; [exact IH | discriminate].
Qed.

Lemma trim_allWhiteSpace (s : string) :
  JS.allWhiteSpace s = true -> JS.trim s = EmptyString.
Proof.
  intros H. unfold JS.trim. rewrite (trimStart_allWhiteSpace s H). reflexivity.
Qed.

Lemma split_no_separator (s : string) :
  hasComma s = false -> JS.split "," s = [s].
Proof.
  induction s as [| c r IH]; cbn; [reflexivity |].
  intros H. apply orb_false_elim in H. destruct H as [Hc Hr].
  rewrite Hc, (IH Hr). reflexivity.
Qed.

Lemma split_data_uri_shape (meta payload : string) :
  hasComma meta = false -> hasComma payload = false ->
  JS.split "," (meta ++ "," ++ payload)%string = [meta; payload].
Proof.
  intros Hm Hp. induction meta as [| c r IH]; cbn.
  - rewrite (split_no_separator payload Hp). reflexivity.
  - cbn in Hm. apply orb_false_elim in Hm. destruct Hm as [Hc Hr].
    rewrite Hc. cbn in IH. rewrite (IH Hr). reflexivity.
Qed.

Lemma firstInlineImage_png (ps : list Part) (u : string) :
  firstInlineImage ps = Some u ->
  exists inlineData,
    List.In (Some inlineData) (List.map part_inlineData ps) /\
    u = ("data:image/png;base64," ++ JS.toString (data inlineData))%string.
Proof.
  induction ps as [| part rest IH]; cbn; [discriminate |].
  destruct (part_inlineData part) as [d |] eqn:E.
  - intros H. injection H as <-. exists d. split; [left; reflexivity | reflexivity].
  - intros H. destruct (IH H) as [d [Hin Hu]]. exists d. split; [right; exact Hin | exact Hu].
Qed.

Lemma firstInlineImage_none (ps : list Part) :
  forallb (fun part => match part_inlineData part with
                       | None => true
                       | Some _ => false
                       end) ps = true ->
  firstInlineImage ps = None.
Proof.
  induction ps as [| part rest IH]; cbn; [reflexivity |].
  destruct (part_inlineData part); cbn; [discriminate | exact IH].
Qed.

(** ** Runs *)

Section RunFacts.

Variable env : Provider.

Lemma ends_ret {R} (r : R) (w : World) : ends env (Ret r) w w r.
Proof. unfold ends, run. rewrite interp_state_ret. reflexivity. Qed.

Lemma ends_trigger {X} (e : appE X) (w : World) :
  ends env (ITree.trigger e) w (fst (step env e w)) (snd (step env e w)).
Proof.
  unfold ends, run. rewrite interp_state_trigger. unfold handle.
  destruct (step env e w). reflexivity.
Qed.

Lemma ends_trigger_eq {X} (e : appE X) (w w1 : World) (x : X) :
  step env e w = (w1, x) -> ends env (ITree.trigger e) w w1 x.
Proof.
  intros H. pose proof (ends_trigger e w) as Ht. rewrite H in Ht. exact Ht.
Qed.

Lemma ends_bind {A B} (t : itree appE A) (k : A -> itree appE B)
      (w w1 w2 : World) (a : A) (b : B) :
  ends env t w w1 a -> ends env (k a) w1 w2 b ->
  ends env (ITree.bind t k) w w2 b.
Proof.
  unfold ends, run. intros Ht Hk.
  rewrite interp_state_bind, Ht, bind_ret_l. cbn. exact Hk.
Qed.

Lemma ends_tau {R} (t : itree appE R) (w w' : World) (r : R) :
  ends env t w w' r -> ends env (Tau t) w w' r.
Proof.
  unfold ends, run. intros H. rewrite interp_state_tau, tau_eutt. exact H.
Qed.

(** A run has one end. *)
Lemma ends_inj {R} (t : itree appE R) (w w1 w2 : World) (r1 r2 : R) :
  ends env t w w1 r1 -> ends env t w w2 r2 -> w1 = w2 /\ r1 = r2.
Proof.
  unfold ends. intros H1 H2. rewrite H1 in H2.
  apply eutt_inv_Ret in H2. inversion H2. auto.
Qed.

Lemma ends_in {R} (t : itree appE R) (w w1 w2 : World) (r1 r2 : R) :
  ends env t w w1 r1 -> w1 = w2 -> r1 = r2 -> ends env t w w2 r2.
Proof. intros H <- <-. exact H. Qed.

(** What [runFor] computes is the end of the run. *)
Lemma runFor_ends {R} (fuel : nat) :
  forall (t : itree appE R) (w w' : World) (r : R),
    runFor env fuel t w = Some (w', r) -> ends env t w w' r.
Proof.
  induction fuel as [| fuel IH]; intros t w w' r H; cbn in H; [discriminate |].
  unfold ends, run. rewrite (itree_eta t).
  destruct (observe t) as [r0 | t' | X e k].
  - injection H as <- <-. rewrite interp_state_ret. reflexivity.
  - rewrite interp_state_tau, tau_eutt. apply IH. exact H.
  - rewrite interp_state_vis. unfold handle at 1. rewrite bind_ret_l.
    destruct (step env e w) as [w1 x]. cbn. rewrite tau_eutt. apply IH. exact H.
Qed.

Lemma ends_await_ok {A B} (t : async A) (k : A -> async B)
      (w w1 w2 : World) (a : A) (r : exn + B) :
  ends env t w w1 (inr a) -> ends env (k a) w1 w2 r ->
  ends env (await t k) w w2 r.
Proof. intros Ht Hk. unfold await. eapply ends_bind; [exact Ht | exact Hk]. Qed.

Lemma ends_await_error {A B} (t : async A) (k : A -> async B)
      (w w1 : World) (e : exn) :
  ends env t w w1 (inl e) -> ends env (await t k) w w1 (inl e).
Proof.
  intros Ht. unfold await. eapply ends_bind; [exact Ht | apply ends_ret].
Qed.

Lemma ends_try_ok (body : async unit) handler final (w w1 w2 : World) :
  ends env body w w1 (inr tt) -> ends env final w1 w2 tt ->
  ends env (try_catch_finally body handler final) w w2 tt.
Proof.
  intros Hb Hf. unfold try_catch_finally.
  eapply ends_bind; [exact Hb |].
  eapply ends_bind; [apply ends_ret | exact Hf].
Qed.

Lemma ends_try_error (body : async unit) handler final
      (w w1 w2 w3 : World) (e : exn) :
  ends env body w w1 (inl e) -> ends env (handler e) w1 w2 tt ->
  ends env final w2 w3 tt ->
  ends env (try_catch_finally body handler final) w w3 tt.
Proof.
  intros Hb Hh Hf. unfold try_catch_finally.
  eapply ends_bind; [exact Hb |].
  eapply ends_bind; [exact Hh | exact Hf].
Qed.

Lemma ends_iter_stop {I R} (body : I -> itree appE (I + R)) (i : I)
      (w w1 : World) (r : R) :
  ends env (body i) w w1 (inr r) -> ends env (ITree.iter body i) w w1 r.
Proof.
  intros Hb. unfold ends, run. rewrite unfold_iter.
  fold (run env (ITree.bind (body i)
    (fun lr => match lr with
               | inl l => Tau (ITree.iter body l)
               | inr r0 => Ret r0
               end)) w).
  eapply ends_bind; [exact Hb | apply ends_ret].
Qed.

Lemma ends_iter_again {I R} (body : I -> itree appE (I + R)) (i i' : I)
      (w w1 w2 : World) (r : R) :
  ends env (body i) w w1 (inl i') -> ends env (ITree.iter body i') w1 w2 r ->
  ends env (ITree.iter body i) w w2 r.
Proof.
  intros Hb Hi. unfold ends, run. rewrite unfold_iter.
  fold (run env (ITree.bind (body i)
    (fun lr => match lr with
               | inl l => Tau (ITree.iter body l)
               | inr r0 => Ret r0
               end)) w).
  eapply ends_bind; [exact Hb | apply ends_tau; exact Hi].
Qed.

End RunFacts.

(** One event, then the rest. *)
Ltac run_events :=
  repeat (eapply ends_bind; [apply ends_trigger |]).

Ltac tidy_log := cbn; rewrite <- ?app_assoc; cbn.

(** ** The gateway's functions *)

Section GatewayFacts.

Variable env : Provider.

Lemma analyzeCode_ends (code : string) (w : World) :
  ends env (analyzeCode code) w
       (record_ (GenerateContent (analyzeCodeRequest code)) w)
       (analysisOutcome (generateContent env (analyzeCodeRequest code))).
Proof.
  unfold analyzeCode, analysisOutcome.
  destruct (generateContent env (analyzeCodeRequest code)) as [e | response] eqn:E.
  - apply ends_await_error. apply ends_trigger_eq. cbn. rewrite E. reflexivity.
  - eapply ends_await_ok.
    + apply ends_trigger_eq. cbn. rewrite E. reflexivity.
    + destruct (JSONParse.parse (JS.toString (text response))); apply ends_ret.
Qed.

Lemma generateLesson_ends (topic : string) (w : World) :
  ends env (generateLesson topic) w
       (record_ (GenerateContent (generateLessonRequest topic)) w)
       (match generateContent env (generateLessonRequest topic) with
        | inl e => inl e
        | inr response => inr (text response)
        end).
Proof.
  unfold generateLesson.
  destruct (generateContent env (generateLessonRequest topic)) eqn:E.
  - apply ends_await_error. apply ends_trigger_eq. cbn. rewrite E. reflexivity.
  - eapply ends_await_ok.
    + apply ends_trigger_eq. cbn. rewrite E. reflexivity.
    + apply ends_ret.
Qed.

(** The outcome the two image functions make of the provider's answer. *)
Lemma image_ends (request : GenerateContentParameters) (w : World) :
  ends env
       (response <~ ITree.trigger (GenerateContent request) ;;
        match candidateParts response with
        | inl e => reject e
        | inr ps => resolve (firstInlineImage ps)
        end) w
       (record_ (GenerateContent request) w)
       (imageOutcome (generateContent env request)).
Proof.
  unfold imageOutcome.
  destruct (generateContent env request) as [e | response] eqn:E.
  - apply ends_await_error. apply ends_trigger_eq. cbn. rewrite E. reflexivity.
  - eapply ends_await_ok.
    + apply ends_trigger_eq. cbn. rewrite E. reflexivity.
    + destruct (candidateParts response); apply ends_ret.
Qed.

Lemma generateConceptImage_ends (concept : string) (w : World) :
  ends env (generateConceptImage concept) w
       (record_ (GenerateContent (generateConceptImageRequest concept)) w)
       (imageOutcome (generateContent env (generateConceptImageRequest concept))).
Proof. apply image_ends. Qed.

Lemma editConceptImage_ends (base64Image prompt : string) (w : World) :
  ends env (editConceptImage base64Image prompt) w
       (record_ (GenerateContent (editConceptImageRequest base64Image prompt)) w)
       (imageOutcome
          (generateContent env (editConceptImageRequest base64Image prompt))).
Proof. apply image_ends. Qed.

Lemma world_eta (w : World) :
  w = {| app := app w; log := log w; polls := polls w |}.
Proof. destruct w. reflexivity. Qed.

(** The loop follows the provider's reports: it ends when [pollTrace]
    does, with its outcome, having made its waits and queries. *)
Lemma pollUntilDone_ends (fuel : nat) :
  forall (w : World) (operation : Operation) k' r l,
    pollTrace env fuel (polls w) operation = Some (k', r, l) ->
    ends env (pollUntilDone operation) w
         {| app := app w; log := log w ++ l; polls := k' |} r.
Proof.
  induction fuel as [| fuel IH]; intros w operation k' r l H; cbn in H.
  - destruct (JS.truthyb (done operation)) eqn:D; [| discriminate].
    injection H as <- <- <-. unfold pollUntilDone.
    apply ends_iter_stop. unfold pollOnce. rewrite D.
    rewrite app_nil_r, <- world_eta. apply ends_ret.
  - destruct (JS.truthyb (done operation)) eqn:D.
    + injection H as <- <- <-. unfold pollUntilDone.
      apply ends_iter_stop. unfold pollOnce. rewrite D.
      rewrite app_nil_r, <- world_eta. apply ends_ret.
    + destruct (getVideosOperation env (polls w) operation) as [e | operation'] eqn:G.
      * injection H as <- <- <-. unfold pollUntilDone.
        apply ends_iter_stop. unfold pollOnce. rewrite D.
        eapply ends_bind; [apply ends_trigger |].
        eapply ends_bind; [apply ends_trigger |].
        cbn. rewrite G. eapply ends_in; [apply ends_ret | | reflexivity].
        unfold countPoll, record_. cbn. rewrite <- app_assoc. reflexivity.
      * destruct (pollTrace env fuel (S (polls w)) operation')
          as [[[k1 r1] l1] |] eqn:P; [| discriminate].
        injection H as <- <- <-. unfold pollUntilDone.
        eapply ends_iter_again.
        -- unfold pollOnce. rewrite D.
           eapply ends_bind; [apply ends_trigger |].
           eapply ends_bind; [apply ends_trigger |].
           cbn. rewrite G. apply ends_ret.
        -- eapply ends_in; [apply (IH _ operation' k1 r1 l1); exact P | | reflexivity].
           cbn. rewrite <- !app_assoc. reflexivity.
Qed.

Variable apiKey : string.

Lemma generateConceptVideo_fails_at_once (concept : string) (w : World) (e : exn) :
  generateVideos env (generateVideosRequest concept) = inl e ->
  ends env (generateConceptVideo apiKey concept) w
       (record_ (GenerateVideos (generateVideosRequest concept)) w) (inl e).
Proof.
  intros E. unfold generateConceptVideo.
  apply ends_await_error. apply ends_trigger_eq. cbn. rewrite E. reflexivity.
Qed.

Lemma generateConceptVideo_ends (concept : string) (w : World)
      (operation : Operation) (fuel k' : nat) r l :
  generateVideos env (generateVideosRequest concept) = inr operation ->
  pollTrace env fuel (polls w) operation = Some (k', r, l) ->
  ends env (generateConceptVideo apiKey concept) w
       {| app := app w;
          log := log w ++ Act (GenerateVideos (generateVideosRequest concept))
                   :: l ++ snd (afterPolling env apiKey r);
          polls := k' |}
       (fst (afterPolling env apiKey r)).
Proof.
  intros E P. unfold generateConceptVideo.
  eapply ends_await_ok.
  { apply ends_trigger_eq. cbn. rewrite E. reflexivity. }
  pose proof (pollUntilDone_ends fuel
                (record_ (GenerateVideos (generateVideosRequest concept)) w)
                operation k' r l P) as Hp.
  cbn in Hp. rewrite <- app_assoc in Hp. cbn in Hp.
  destruct r as [e | finished].
  - cbn. rewrite app_nil_r. apply ends_await_error. exact Hp.
  - eapply ends_await_ok; [exact Hp |]. cbn zeta. unfold afterPolling. cbn zeta.
    destruct (negb (JS.truthy (downloadLinkOf finished))).
    + cbn. rewrite app_nil_r. apply ends_ret.
    + destruct (fetch env (JS.toString (downloadLinkOf finished)) (fetchInit apiKey))
        as [e | served] eqn:F.
      * cbn. apply ends_await_error. apply ends_trigger_eq. cbn. rewrite F.
        unfold record_. cbn. rewrite <- app_assoc. reflexivity.
      * eapply ends_await_ok.
        { apply ends_trigger_eq. cbn. rewrite F. reflexivity. }
        destruct (blob env served) as [e | b] eqn:B.
        -- cbn. apply ends_await_error. apply ends_trigger_eq. cbn. rewrite B.
           unfold record_. cbn. rewrite <- !app_assoc. reflexivity.
        -- eapply ends_await_ok.
           { apply ends_trigger_eq. cbn. rewrite B. reflexivity. }
           eapply ends_bind; [apply ends_trigger |].
           eapply ends_in; [apply ends_ret | | reflexivity].
           cbn. unfold record_. cbn. rewrite <- !app_assoc. reflexivity.
Qed.

End GatewayFacts.

(** ** The orchestrator's flows

    For each flow: the world it ends in, by the outcome of its call. *)

Section FlowFacts.

Variable env : Provider.

Lemma handleGenerateLesson_ends (s : AppState) (topic : string) (w : World) :
  exists w', ends env (handleGenerateLesson s topic) w w' tt /\
    let req := generateLessonRequest topic in
    let cleared :=
      with_conceptVideo None (with_conceptImage None (with_isLoading true (app w))) in
    match generateContent env req with
    | inl e =>
        app w' = with_isLoading false cleared /\
        log w' = log w ++
          [Act (SetIsLoading true); Act (SetConceptImage None);
           Act (SetConceptVideo None); Act (GenerateContent req);
           Act (ConsoleError "Error generating lesson:" e);
           Act (SetIsLoading false)]
    | inr response =>
        app w' = with_isLoading false
                   (with_lessonTopic topic
                      (with_currentLesson (text response) cleared)) /\
        log w' = log w ++
          [Act (SetIsLoading true); Act (SetConceptImage None);
           Act (SetConceptVideo None); Act (GenerateContent req);
           Act (SetCurrentLesson (text response)); Act (SetLessonTopic topic);
           Act (SetIsLoading false)]
    end.
Proof.
  pose proof (fun w0 => generateLesson_ends env topic w0) as Hg.
  unfold handleGenerateLesson. cbn zeta.
  destruct (generateContent env (generateLessonRequest topic)) as [e | response].
  - eexists. split.
    + run_events. eapply ends_try_error.
      * apply ends_await_error. apply Hg.
      * apply ends_trigger.
      * apply ends_trigger.
    + tidy_log. split; reflexivity.
  - eexists. split.
    + run_events. eapply ends_try_ok.
      * eapply ends_await_ok; [apply Hg |]. run_events. apply ends_ret.
      * apply ends_trigger.
    + tidy_log. split; reflexivity.
Qed.

Lemma handleGenerateIllustration_ends (s : AppState) (w : World) :
  exists w', ends env (handleGenerateIllustration s) w w' tt /\
    let req := generateConceptImageRequest (lessonTopic s) in
    match imageOutcome (generateContent env req) with
    | inl e =>
        app w' = with_isLoading false (with_isLoading true (app w)) /\
        log w' = log w ++
          [Act (SetIsLoading true); Act (GenerateContent req);
           Act (ConsoleError "Error generating image:" e);
           Act (SetIsLoading false)]
    | inr img =>
        app w' = with_isLoading false
                   (with_conceptImage img (with_isLoading true (app w))) /\
        log w' = log w ++
          [Act (SetIsLoading true); Act (GenerateContent req);
           Act (SetConceptImage img); Act (SetIsLoading false)]
    end.
Proof.
  pose proof (fun w0 => generateConceptImage_ends env (lessonTopic s) w0) as Hg.
  unfold handleGenerateIllustration. cbn zeta.
  destruct (imageOutcome _) as [e | img].
  - eexists. split.
    + run_events. eapply ends_try_error.
      * apply ends_await_error. apply Hg.
      * apply ends_trigger.
      * apply ends_trigger.
    + tidy_log. split; reflexivity.
  - eexists. split.
    + run_events. eapply ends_try_ok.
      * eapply ends_await_ok; [apply Hg |]. run_events. apply ends_ret.
      * apply ends_trigger.
    + tidy_log. split; reflexivity.
Qed.

Lemma handleEditIllustration_ends (s : AppState) (prompt image : string)
      (w : World) :
  conceptImage s = Some image -> JS.truthy (Some image) = true ->
  exists w', ends env (handleEditIllustration s prompt) w w' tt /\
    let req := editConceptImageRequest image prompt in
    match imageOutcome (generateContent env req) with
    | inl e =>
        app w' = with_isLoading false (with_isLoading true (app w)) /\
        log w' = log w ++
          [Act (SetIsLoading true); Act (GenerateContent req);
           Act (ConsoleError "Error editing image:" e);
           Act (SetIsLoading false)]
    | inr edited =>
        app w' = with_isLoading false
                   (with_conceptImage edited (with_isLoading true (app w))) /\
        log w' = log w ++
          [Act (SetIsLoading true); Act (GenerateContent req);
           Act (SetConceptImage edited); Act (SetIsLoading false)]
    end.
Proof.
  intros Hi Ht.
  pose proof (fun w0 => editConceptImage_ends env image prompt w0) as Hg.
  unfold handleEditIllustration. rewrite Hi, Ht. cbn zeta. cbn [negb].
  destruct (imageOutcome _) as [e | edited].
  - eexists. split.
    + run_events. eapply ends_try_error.
      * apply ends_await_error. apply Hg.
      * apply ends_trigger.
      * apply ends_trigger.
    + tidy_log. split; reflexivity.
  - eexists. split.
    + run_events. eapply ends_try_ok.
      * eapply ends_await_ok; [apply Hg |]. run_events. apply ends_ret.
      * apply ends_trigger.
    + tidy_log. split; reflexivity.
Qed.

Lemma handleEditIllustration_guard (s : AppState) (prompt : string) (w : World) :
  JS.truthy (conceptImage s) = false ->
  ends env (handleEditIllustration s prompt) w w tt.
Proof.
  intros H. unfold handleEditIllustration.
  destruct (conceptImage s) as [image |]; [| apply ends_ret].
  rewrite H. apply ends_ret.
Qed.

Lemma handleAnalyzeCode_ends (s : AppState) (w : World) :
  exists w', ends env (handleAnalyzeCode s) w w' tt /\
    let req := analyzeCodeRequest (code s) in
    match analysisOutcome (generateContent env req) with
    | inl e =>
        app w' = with_isLoading false (with_isLoading true (app w)) /\
        log w' = log w ++
          [Act (SetIsLoading true); Act (GenerateContent req);
           Act (ConsoleError "Error analyzing code:" e);
           Act (SetIsLoading false)]
    | inr result =>
        app w' = with_isLoading false
                   (with_analysis (Some result) (with_isLoading true (app w))) /\
        log w' = log w ++
          [Act (SetIsLoading true); Act (GenerateContent req);
           Act (SetAnalysis (Some result)); Act (SetIsLoading false)]
    end.
Proof.
  pose proof (fun w0 => analyzeCode_ends env (code s) w0) as Hg.
  unfold handleAnalyzeCode. cbn zeta.
  destruct (analysisOutcome _) as [e | result].
  - eexists. split.
    + run_events. eapply ends_try_error.
      * apply ends_await_error. apply Hg.
      * apply ends_trigger.
      * apply ends_trigger.
    + tidy_log. split; reflexivity.
  - eexists. split.
    + run_events. eapply ends_try_ok.
      * eapply ends_await_ok; [apply Hg |]. run_events. apply ends_ret.
      * apply ends_trigger.
    + tidy_log. split; reflexivity.
Qed.

Lemma handleSendMessage_guard (s : AppState) (w : World) :
  JS.truthy (Some (JS.trim (chatInput s))) = false ->
  ends env (handleSendMessage s) w w tt.
Proof.
  intros H. unfold handleSendMessage. rewrite H. apply ends_ret.
Qed.

Lemma handleSendMessage_ends (s : AppState) (w : World) :
  JS.truthy (Some (JS.trim (chatInput s))) = true ->
  exists w', ends env (handleSendMessage s) w w' tt /\
    let userMsg := {| role := user; msg_text := chatInput s |} in
    let append := fun prev : list ChatMessage => prev ++ [userMsg] in
    let sent :=
      with_isLoading true
        (with_chatInput "" (with_chatMessages (chatMessages (app w) ++ [userMsg]) (app w))) in
    match sendMessage env (chatInput s) with
    | inl e =>
        app w' = with_isLoading false sent /\
        log w' = log w ++
          [Act (SetChatMessages append); Act (SetChatInput "");
           Act (SetIsLoading true); Act (ChatSendMessage (chatInput s));
           Act (ConsoleError "Error in chat:" e); Act (SetIsLoading false)]
    | inr response =>
        let reply := {| role := model;
                        msg_text := JS.orElse (text response) "No response" |} in
        app w' = with_isLoading false
                   (with_chatMessages
                      (chatMessages (app w) ++ [userMsg] ++ [reply]) sent) /\
        log w' = log w ++
          [Act (SetChatMessages append); Act (SetChatInput "");
           Act (SetIsLoading true); Act (ChatSendMessage (chatInput s));
           Act (SetChatMessages (fun prev => prev ++ [reply]));
           Act (SetIsLoading false)]
    end.
Proof.
  intros H. unfold handleSendMessage. rewrite H. cbn zeta. cbn [negb].
  destruct (sendMessage env (chatInput s)) as [e | response] eqn:E.
  - eexists. split.
    + run_events. eapply ends_try_error.
      * apply ends_await_error. unfold tutorChat_sendMessage.
        apply ends_trigger_eq. cbn. rewrite E. reflexivity.
      * apply ends_trigger.
      * apply ends_trigger.
    + tidy_log. split; reflexivity.
  - eexists. split.
    + run_events. eapply ends_try_ok.
      * eapply ends_await_ok.
        { unfold tutorChat_sendMessage.
          apply ends_trigger_eq. cbn. rewrite E. reflexivity. }
        run_events. apply ends_ret.
      * apply ends_trigger.
    + tidy_log. split; reflexivity.
Qed.

Variable apiKey : string.

Lemma handleGenerateVideo_fails_at_once (s : AppState) (w : World) (e : exn) :
  let req := generateVideosRequest (lessonTopic s) in
  generateVideos env req = inl e ->
  exists w', ends env (handleGenerateVideo apiKey s) w w' tt /\
    app w' = with_isLoading false (with_isLoading true (app w)) /\
    log w' = log w ++
      [Act (SetIsLoading true); Act (GenerateVideos req);
       Act (ConsoleError "Error generating video:" e); Act (SetIsLoading false)].
Proof.
  intros req E. unfold handleGenerateVideo.
  eexists. split.
  - run_events. eapply ends_try_error.
    + apply ends_await_error.
      apply (generateConceptVideo_fails_at_once env apiKey _ _ e E).
    + apply ends_trigger.
    + apply ends_trigger.
  - tidy_log. split; reflexivity.
Qed.

Lemma handleGenerateVideo_ends (s : AppState) (w : World)
      (operation : Operation) (fuel k' : nat) r l :
  let req := generateVideosRequest (lessonTopic s) in
  generateVideos env req = inr operation ->
  pollTrace env fuel (polls w) operation = Some (k', r, l) ->
  exists w', ends env (handleGenerateVideo apiKey s) w w' tt /\
    let calls := Act (GenerateVideos req) :: l ++ snd (afterPolling env apiKey r) in
    match fst (afterPolling env apiKey r) with
    | inl e =>
        app w' = with_isLoading false (with_isLoading true (app w)) /\
        log w' = log w ++ Act (SetIsLoading true) :: calls ++
          [Act (ConsoleError "Error generating video:" e); Act (SetIsLoading false)]
    | inr videoUrl =>
        app w' = with_isLoading false
                   (with_conceptVideo videoUrl (with_isLoading true (app w))) /\
        log w' = log w ++ Act (SetIsLoading true) :: calls ++
          [Act (SetConceptVideo videoUrl); Act (SetIsLoading false)]
    end.
Proof.
  intros req E P. unfold handleGenerateVideo.
  pose proof (generateConceptVideo_ends env apiKey (lessonTopic s)
                (fst (step env (SetIsLoading true) w)) operation fuel k' r l E P) as Hg.
  cbn zeta. fold req in Hg |- *.
  destruct (fst (afterPolling env apiKey r)) as [e | videoUrl].
  - eexists. split.
    + run_events. eapply ends_try_error.
      * apply ends_await_error. exact Hg.
      * apply ends_trigger.
      * apply ends_trigger.
    + tidy_log. split; [reflexivity |].
      rewrite <- ?app_assoc. cbn. reflexivity.
  - eexists. split.
    + run_events. eapply ends_try_ok.
      * eapply ends_await_ok; [exact Hg |]. run_events. apply ends_ret.
      * apply ends_trigger.
    + tidy_log. split; [reflexivity |].
      rewrite <- ?app_assoc. cbn. reflexivity.
Qed.

End FlowFacts.

(** ** Logs *)

Lemma callsWhileBusy_quiet (q rest : list Action) :
  forallb quiet q = true ->
  callsWhileBusy true (q ++ rest) = callsWhileBusy true rest.
Proof.
  induction q as [| a q IH]; cbn; [reflexivity |].
  intros H. apply andb_prop in H. destruct H as [Ha Hq].
  destruct a as [X e]. destruct e; cbn in Ha; try discriminate;
    cbn; rewrite ?orb_true_r; cbn; apply IH; exact Hq.
Qed.

Lemma filter_isSetter_quiet (q rest : list Action) :
  forallb quiet q = true ->
  filter isSetter (q ++ rest) = filter isSetter rest.
Proof.
  induction q as [| a q IH]; cbn; [reflexivity |].
  intros H. apply andb_prop in H. destruct H as [Ha Hq].
  unfold quiet in Ha. destruct (isSetter a); [discriminate | apply IH; exact Hq].
Qed.

Lemma existsb_isConsoleError_quiet (q rest : list Action) :
  forallb quiet q = true ->
  existsb isConsoleError (q ++ rest) = existsb isConsoleError rest.
Proof.
  induction q as [| a q IH]; cbn; [reflexivity |].
  intros H. apply andb_prop in H. destruct H as [Ha Hq].
  unfold quiet in Ha. destruct (isConsoleError a).
  - rewrite andb_false_r in Ha. discriminate.
  - cbn. apply IH. exact Hq.
Qed.

Lemma pollTrace_quiet (env : Provider) (fuel : nat) :
  forall k operation k' r l,
    pollTrace env fuel k operation = Some (k', r, l) ->
    forallb quiet l = true /\ existsb isFetch l = false.
Proof.
  induction fuel as [| fuel IH]; intros k operation k' r l H; cbn in H.
  - destruct (JS.truthyb (done operation)); [| discriminate].
    injection H as <- <- <-. split; reflexivity.
  - destruct (JS.truthyb (done operation)).
    + injection H as <- <- <-. split; reflexivity.
    + destruct (getVideosOperation env k operation) as [e | operation'].
      * injection H as <- <- <-. split; reflexivity.
      * destruct (pollTrace env fuel (S k) operation') as [[[k1 r1] l1] |] eqn:P;
          [| discriminate].
        injection H as <- <- <-. cbn. exact (IH _ _ _ _ _ P).
Qed.

Lemma afterPolling_quiet (env : Provider) (apiKey : string) (r : exn + Operation) :
  forallb quiet (snd (afterPolling env apiKey r)) = true.
Proof.
  unfold afterPolling. destruct r as [e | operation]; [reflexivity |].
  cbn zeta. destruct (negb (JS.truthy (downloadLinkOf operation))); [reflexivity |].
  destruct (fetch env _ _) as [e | served]; [reflexivity |].
  destruct (blob env served); reflexivity.
Qed.

(** The number of waits the polling made is the number of its queries. *)
Lemma pollTrace_waits (env : Provider) (fuel : nat) :
  forall k operation k' r l,
    pollTrace env fuel k operation = Some (k', r, l) ->
    k + List.length (filter isTimeout l) = k'.
Proof.
  induction fuel as [| fuel IH]; intros k operation k' r l H; cbn in H.
  - destruct (JS.truthyb (done operation)); [| discriminate].
    injection H as <- <- <-. cbn. lia.
  - destruct (JS.truthyb (done operation)).
    + injection H as <- <- <-. cbn. lia.
    + destruct (getVideosOperation env k operation) as [e | operation'].
      * injection H as <- <- <-. cbn. lia.
      * destruct (pollTrace env fuel (S k) operation') as [[[k1 r1] l1] |] eqn:P;
          [| discriminate].
        injection H as <- <- <-. cbn. pose proof (IH _ _ _ _ _ P). lia.
Qed.

(** * Properties *)

(** ** Code analysis *)

(** C1, as the code has it.  [analyzeCode] fails with the provider's error
    when the call fails and with a [SyntaxError] (the spec's
    SchemaViolation) exactly when the response text is not JSON; a text
    that parses is returned as the value it parses to, whatever fields it
    has: no field is looked at. *)
Theorem analyzeCode_returns_what_parses :
  forall (env : Provider) (code : string) (w : World),
    ends env (analyzeCode code) w
         (record_ (GenerateContent (analyzeCodeRequest code)) w)
         (match generateContent env (analyzeCodeRequest code) with
          | inl e => inl e
          | inr response =>
              match JSONParse.parse (JS.toString (text response)) with
              | Some v => inr v
              | None => inl SyntaxError
              end
          end)
    /\ classify SyntaxError = SchemaViolation.
Proof.
  intros env code w. split; [| reflexivity].
  exact (analyzeCode_ends env code w).
Qed.

(** C1 as the spec states it fails: a response that is JSON with only the
    field explanation is returned as a result with that one field, and the
    analysis flow stores it; the call does not fail. *)
Lemma analyzeCode_partial_result_counterexample :
  JSONParse.parse partialAnalysisText = Some partialAnalysis /\
  getField "bugs" partialAnalysis = None /\
  runFor partialProvider 8 (analyzeCode "x = 1") (worldOf initialState)
  = Some (record_ (GenerateContent (analyzeCodeRequest "x = 1")) (worldOf initialState),
          inr partialAnalysis) /\
  ~ (exists w' e, ends partialProvider (analyzeCode "x = 1")
                       (worldOf initialState) w' (inl e)) /\
  option_map (fun end_ => analysis (app (fst end_)))
             (runFor partialProvider 16 (handleAnalyzeCode initialState)
                     (worldOf initialState))
  = Some (Some partialAnalysis).
Proof.
  split; [reflexivity |]. split; [reflexivity |].
  assert (H : runFor partialProvider 8 (analyzeCode "x = 1") (worldOf initialState)
              = Some (record_ (GenerateContent (analyzeCodeRequest "x = 1"))
                              (worldOf initialState),
                      inr partialAnalysis)) by (vm_compute; reflexivity).
  split; [exact H |]. split; [| vm_compute; reflexivity].
  intros [w' [e He]].
  destruct (ends_inj _ _ _ _ _ _ _ (runFor_ends _ _ _ _ _ _ H) He) as [_ Hr].
  discriminate Hr.
Qed.

(** ** Editing the illustration *)

(** C2, as the code has it.  For an input with no comma [editConceptImage]
    raises nothing of its own: it submits the request with an absent
    payload, and its outcome is the outcome of the provider call.  In the
    edit flow the stored illustration is unchanged when that outcome is a
    failure, and replaced by the result when it is not. *)
Theorem editConceptImage_unchecked_input :
  forall (env : Provider) (w : World) (image prompt : string),
    hasComma image = false ->
    conceptImage (app w) = Some image ->
    JS.truthy (Some image) = true ->
    let req := editConceptImageRequest image prompt in
    gc_contents req =
      ContentsParts
        [ {| part_inlineData := Some {| data := None; mimeType := Some "image/png" |};
             part_text := None |};
          {| part_inlineData := None; part_text := Some prompt |} ] /\
    ends env (editConceptImage image prompt) w (record_ (GenerateContent req) w)
         (imageOutcome (generateContent env req)) /\
    (forall e, imageOutcome (generateContent env req) = inl e ->
               classify e <> MalformedInput) /\
    exists w', ends env (handleEditIllustration (app w) prompt) w w' tt /\
      match imageOutcome (generateContent env req) with
      | inl _ => conceptImage (app w') = Some image
      | inr edited => conceptImage (app w') = edited
      end.
Proof.
  intros env w image prompt Hc Hi Ht req. split; [| split; [| split]].
  - unfold req, editConceptImageRequest. cbn.
    rewrite (split_no_separator image Hc). reflexivity.
  - apply editConceptImage_ends.
  - intros e _. destruct e; discriminate.
  - destruct (handleEditIllustration_ends env (app w) prompt image w Hi Ht)
      as [w' [Hw Hs]].
    exists w'. split; [exact Hw |]. cbn zeta in Hs. fold req in Hs.
    destruct (imageOutcome (generateContent env req)) as [e | edited];
      destruct Hs as [Ha _]; rewrite Ha; cbn; [exact Hi | reflexivity].
Qed.

Lemma editConceptImage_unchecked_input_witness :
  exists w',
    ends jpegProvider
         (handleEditIllustration (app (worldOf (withIllustration "AAAA")))
                                 "Add a retro filter")
         (worldOf (withIllustration "AAAA")) w' tt /\
    conceptImage (app w') = Some "data:image/png;base64,BBBB".
Proof.
  destruct (editConceptImage_unchecked_input jpegProvider
              (worldOf (withIllustration "AAAA")) "AAAA" "Add a retro filter"
              eq_refl eq_refl eq_refl) as [_ [_ [_ [w' [Hw Hs]]]]].
  exists w'. split; [exact Hw | exact Hs].
Defined.

(** C2 as the spec states it fails: the input AAAA has no comma, yet with
    a provider that answers the edit succeeds with the provider's image
    and the edit flow replaces the stored illustration; with a provider
    that rejects the call, the failure is the provider's error. *)
Lemma editConceptImage_no_comma_counterexample :
  hasComma "AAAA" = false /\
  runFor offline 8 (editConceptImage "AAAA" "Add a retro filter")
         (worldOf (withIllustration "AAAA"))
  = Some (record_ (GenerateContent (editConceptImageRequest "AAAA" "Add a retro filter"))
                  (worldOf (withIllustration "AAAA")),
          inl (RemoteError "offline")) /\
  classify (RemoteError "offline") <> MalformedInput /\
  runFor jpegProvider 8 (editConceptImage "AAAA" "Add a retro filter")
         (worldOf (withIllustration "AAAA"))
  = Some (record_ (GenerateContent (editConceptImageRequest "AAAA" "Add a retro filter"))
                  (worldOf (withIllustration "AAAA")),
          inr (Some "data:image/png;base64,BBBB"%string)) /\
  ~ (exists w' e, ends jpegProvider (editConceptImage "AAAA" "Add a retro filter")
                       (worldOf (withIllustration "AAAA")) w' (inl e)) /\
  option_map (fun end_ => conceptImage (app (fst end_)))
             (runFor jpegProvider 16
                     (handleEditIllustration (withIllustration "AAAA") "Add a retro filter")
                     (worldOf (withIllustration "AAAA")))
  = Some (Some "data:image/png;base64,BBBB"%string) /\
  conceptImage (withIllustration "AAAA") <> Some "data:image/png;base64,BBBB"%string.
Proof.
  split; [reflexivity |].
  assert (H : runFor jpegProvider 8 (editConceptImage "AAAA" "Add a retro filter")
                     (worldOf (withIllustration "AAAA"))
              = Some (record_ (GenerateContent
                                 (editConceptImageRequest "AAAA" "Add a retro filter"))
                              (worldOf (withIllustration "AAAA")),
                      inr (Some "data:image/png;base64,BBBB"%string)))
    by (vm_compute; reflexivity).
  split; [vm_compute; reflexivity |]. split; [discriminate |].
  split; [exact H |]. split; [| split; [vm_compute; reflexivity | discriminate]].
  intros [w' [e He]].
  destruct (ends_inj _ _ _ _ _ _ _ (runFor_ends _ _ _ _ _ _ H) He) as [_ Hr].
  discriminate Hr.
Qed.

(** A response with no inline part has none among the parts the loop
    reads. *)
Lemma hasInlineImage_candidateParts (response : GenerateContentResponse)
      (ps : list Part) :
  hasInlineImage response = false ->
  candidateParts response = inr ps ->
  forallb noInlineData ps = true.
Proof.
  unfold hasInlineImage, allParts, candidateParts.
  destruct (candidates response) as [[| c cs] |]; cbn; try discriminate.
  destruct (content c) as [ct |]; [| discriminate].
  destruct (parts ct) as [qs |]; [| discriminate].
  intros Hn Hc. injection Hc as ->. rewrite existsb_app in Hn.
  apply orb_false_elim in Hn. destruct Hn as [Hn _]. revert Hn.
  induction ps as [| part rest IH]; cbn; [reflexivity |].
  intros Hn. apply orb_false_elim in Hn. destruct Hn as [Hp Hr].
  apply negb_false_iff in Hp. rewrite Hp. exact (IH Hr).
Qed.

Lemma candidateParts_error (response : GenerateContentResponse) (e : exn) :
  candidateParts response = inl e -> e = TypeError.
Proof.
  unfold candidateParts.
  destruct (candidates response) as [cs |]; [| congruence].
  destruct (JS.index cs 0) as [c |]; [| congruence].
  destruct (content c) as [ct |]; [| congruence].
  destruct (parts ct) as [qs |]; congruence.
Qed.

(** C9, as the code has it.  With an illustration stored and an edit call
    that the provider answers with a response in which no part carries
    inline data, the flow ends in one of two ways.  When the parts of the
    first candidate can be read, the stored illustration becomes absent and
    nothing is given to [console.error].  When they cannot (no candidates,
    no first candidate, no content or no parts), reading them throws a
    [TypeError]: the stored illustration is kept and the edit is logged as
    a failure. *)
Theorem handleEditIllustration_without_inline_image :
  forall (env : Provider) (w : World) (image prompt : string)
         (response : GenerateContentResponse),
    conceptImage (app w) = Some image ->
    JS.truthy (Some image) = true ->
    generateContent env (editConceptImageRequest image prompt) = inr response ->
    hasInlineImage response = false ->
    exists w', ends env (handleEditIllustration (app w) prompt) w w' tt /\
      match candidateParts response with
      | inr _ =>
          app w' = with_isLoading false
                     (with_conceptImage None (with_isLoading true (app w))) /\
          conceptImage (app w') = None /\
          log w' = log w ++
            [Act (SetIsLoading true);
             Act (GenerateContent (editConceptImageRequest image prompt));
             Act (SetConceptImage None); Act (SetIsLoading false)]
      | inl e =>
          e = TypeError /\
          app w' = with_isLoading false (with_isLoading true (app w)) /\
          conceptImage (app w') = Some image /\
          log w' = log w ++
            [Act (SetIsLoading true);
             Act (GenerateContent (editConceptImageRequest image prompt));
             Act (ConsoleError "Error editing image:" TypeError);
             Act (SetIsLoading false)]
      end.
Proof.
  intros env w image prompt response Hi Ht Hg Hn.
  destruct (handleEditIllustration_ends env (app w) prompt image w Hi Ht)
    as [w' [Hw Hs]].
  exists w'. split; [exact Hw |]. cbn zeta in Hs.
  unfold imageOutcome in Hs. rewrite Hg in Hs.
  destruct (candidateParts response) as [e | ps] eqn:Hc.
  - pose proof (candidateParts_error response e Hc) as ->.
    destruct Hs as [Ha Hl]. split; [reflexivity |]. split; [exact Ha |].
    split; [| exact Hl]. rewrite Ha. cbn. exact Hi.
  - rewrite (firstInlineImage_none ps (hasInlineImage_candidateParts response ps Hn Hc))
      in Hs.
    destruct Hs as [Ha Hl]. split; [exact Ha |]. split; [| exact Hl].
    rewrite Ha. reflexivity.
Qed.

Lemma handleEditIllustration_without_inline_image_witness :
  (exists w',
      ends wordsProvider
           (handleEditIllustration
              (app (worldOf (withIllustration "data:image/png;base64,AAAA")))
              "Add a retro filter")
           (worldOf (withIllustration "data:image/png;base64,AAAA")) w' tt /\
      conceptImage (app w') = None) /\
  (exists w',
      ends textOnlyProvider
           (handleEditIllustration
              (app (worldOf (withIllustration "data:image/png;base64,AAAA")))
              "Add a retro filter")
           (worldOf (withIllustration "data:image/png;base64,AAAA")) w' tt /\
      conceptImage (app w') = Some "data:image/png;base64,AAAA"%string).
Proof.
  split.
  - destruct (handleEditIllustration_without_inline_image wordsProvider
                (worldOf (withIllustration "data:image/png;base64,AAAA"))
                "data:image/png;base64,AAAA" "Add a retro filter"
                (partsResponse [textPart "I cannot edit this image."])
                eq_refl eq_refl eq_refl eq_refl) as [w' [Hw [_ [Hs _]]]].
    exists w'. split; [exact Hw | exact Hs].
  - destruct (handleEditIllustration_without_inline_image textOnlyProvider
                (worldOf (withIllustration "data:image/png;base64,AAAA"))
                "data:image/png;base64,AAAA" "Add a retro filter"
                (textResponse "I cannot edit this image.")
                eq_refl eq_refl eq_refl eq_refl) as [w' [Hw [_ [_ [Hs _]]]]].
    exists w'. split; [exact Hw | exact Hs].
Defined.

(** C9 as it is stated fails: the provider answers the edit call with a
    response that has text and no candidates, hence no inline image part;
    the flow keeps the stored illustration and logs the edit as a
    failure. *)
Lemma handleEditIllustration_keeps_image_counterexample :
  generateContent textOnlyProvider
    (editConceptImageRequest "data:image/png;base64,AAAA" "Add a retro filter")
  = inr (textResponse "I cannot edit this image.") /\
  hasInlineImage (textResponse "I cannot edit this image.") = false /\
  runFor textOnlyProvider 16
         (handleEditIllustration (withIllustration "data:image/png;base64,AAAA")
                                 "Add a retro filter")
         (worldOf (withIllustration "data:image/png;base64,AAAA"))
  = Some ({| app := withIllustration "data:image/png;base64,AAAA";
             log := [Act (SetIsLoading true);
                     Act (GenerateContent
                            (editConceptImageRequest "data:image/png;base64,AAAA"
                                                     "Add a retro filter"));
                     Act (ConsoleError "Error editing image:" TypeError);
                     Act (SetIsLoading false)];
             polls := 0 |}, tt) /\
  ~ (exists w',
        ends textOnlyProvider
             (handleEditIllustration (withIllustration "data:image/png;base64,AAAA")
                                     "Add a retro filter")
             (worldOf (withIllustration "data:image/png;base64,AAAA")) w' tt /\
        conceptImage (app w') = None).
Proof.
  split; [reflexivity |]. split; [reflexivity |].
  assert (H : runFor textOnlyProvider 16
         (handleEditIllustration (withIllustration "data:image/png;base64,AAAA")
                                 "Add a retro filter")
         (worldOf (withIllustration "data:image/png;base64,AAAA"))
  = Some ({| app := withIllustration "data:image/png;base64,AAAA";
             log := [Act (SetIsLoading true);
                     Act (GenerateContent
                            (editConceptImageRequest "data:image/png;base64,AAAA"
                                                     "Add a retro filter"));
                     Act (ConsoleError "Error editing image:" TypeError);
                     Act (SetIsLoading false)];
             polls := 0 |}, tt)) by (vm_compute; reflexivity).
  split; [exact H |].
  intros [w' [Hw Hn]].
  destruct (ends_inj _ _ _ _ _ _ _ (runFor_ends _ _ _ _ _ _ H) Hw) as [Hw' _].
  rewrite <- Hw' in Hn. discriminate Hn.
Qed.

(** ** Generating a lesson *)

(** C3.  A lesson request clears the stored illustration and video before
    it calls the provider, and they are absent when the flow ends, whether
    the call succeeds or fails. *)
Theorem handleGenerateLesson_clears_media :
  forall (env : Provider) (w : World) (topic : string),
    exists w', ends env (handleGenerateLesson (app w) topic) w w' tt /\
      conceptImage (app w') = None /\
      conceptVideo (app w') = None /\
      exists rest,
        log w' = log w ++
          [Act (SetIsLoading true); Act (SetConceptImage None);
           Act (SetConceptVideo None);
           Act (GenerateContent (generateLessonRequest topic))] ++ rest.
Proof.
  intros env w topic.
  destruct (handleGenerateLesson_ends env (app w) topic w) as [w' [Hw Hs]].
  exists w'. split; [exact Hw |]. cbn zeta in Hs.
  destruct (generateContent env (generateLessonRequest topic)) as [e | response];
    destruct Hs as [Ha Hl]; rewrite Ha, Hl;
    (split; [reflexivity | split; [reflexivity | eexists; reflexivity]]).
Qed.

(** C4.  [r] is what [generateLesson] comes back with, from any world.
    When it is a failure the stored lesson and the active topic are what
    they were; when it is a text the stored lesson is that text and the
    active topic is the requested one.  The busy flag is cleared in both
    cases. *)
Theorem handleGenerateLesson_outcome :
  forall (env : Provider) (w : World) (topic : string),
    exists w' r,
      ends env (handleGenerateLesson (app w) topic) w w' tt /\
      (forall w0, ends env (generateLesson topic) w0
                       (record_ (GenerateContent (generateLessonRequest topic)) w0) r) /\
      isLoading (app w') = false /\
      match r with
      | inl _ =>
          currentLesson (app w') = currentLesson (app w) /\
          lessonTopic (app w') = lessonTopic (app w)
      | inr lesson =>
          currentLesson (app w') = lesson /\
          lessonTopic (app w') = topic
      end.
Proof.
  intros env w topic.
  destruct (handleGenerateLesson_ends env (app w) topic w) as [w' [Hw Hs]].
  pose proof (fun w0 => generateLesson_ends env topic w0) as Hg.
  cbn zeta in Hs.
  destruct (generateContent env (generateLessonRequest topic)) as [e | response];
    destruct Hs as [Ha _].
  - exists w', (inl e). rewrite Ha.
    split; [exact Hw |]. split; [exact Hg |]. repeat split.
  - exists w', (inr (text response)). rewrite Ha.
    split; [exact Hw |]. split; [exact Hg |]. repeat split.
Qed.

(** ** Sending a chat message *)

(** C5.  When the input passes the guard and the remote call fails, the
    transcript ends up as it was with the user turn appended: the call was
    issued after the turn was appended, the error went to the console, and
    no other turn was appended. *)
Theorem handleSendMessage_failure_keeps_user_turn :
  forall (env : Provider) (w : World) (e : exn),
    JS.truthy (Some (JS.trim (chatInput (app w)))) = true ->
    sendMessage env (chatInput (app w)) = inl e ->
    let userMsg := {| role := user; msg_text := chatInput (app w) |} in
    exists w', ends env (handleSendMessage (app w)) w w' tt /\
      chatMessages (app w') = chatMessages (app w) ++ [userMsg] /\
      log w' = log w ++
        [Act (SetChatMessages (fun prev => prev ++ [userMsg]));
         Act (SetChatInput "");
         Act (SetIsLoading true);
         Act (ChatSendMessage (chatInput (app w)));
         Act (ConsoleError "Error in chat:" e);
         Act (SetIsLoading false)].
Proof.
  intros env w e Hg He userMsg.
  destruct (handleSendMessage_ends env (app w) w Hg) as [w' [Hw Hs]].
  exists w'. split; [exact Hw |]. cbn zeta in Hs. rewrite He in Hs.
  destruct Hs as [Ha Hl]. rewrite Ha. split; [reflexivity | exact Hl].
Qed.

Lemma handleSendMessage_failure_keeps_user_turn_witness :
  exists w',
    ends offline (handleSendMessage (app (worldOf (withChatInput "What is a list?"))))
         (worldOf (withChatInput "What is a list?")) w' tt /\
    chatMessages (app w') = [ {| role := user; msg_text := "What is a list?" |} ].
Proof.
  destruct (handleSendMessage_failure_keeps_user_turn offline
              (worldOf (withChatInput "What is a list?")) (RemoteError "offline")
              eq_refl eq_refl) as [w' [Hw [Hs _]]].
  exists w'. split; [exact Hw | exact Hs].
Defined.

(** C6.  When the input is empty or made of white space only, the send
    ends in the world it started in: the state is the same and nothing
    was logged, so no turn was appended and no call was made. *)
Theorem handleSendMessage_blank_is_noop :
  forall (env : Provider) (w : World),
    JS.allWhiteSpace (chatInput (app w)) = true ->
    ends env (handleSendMessage (app w)) w w tt.
Proof.
  intros env w H. apply handleSendMessage_guard.
  rewrite (trim_allWhiteSpace _ H). reflexivity.
Qed.

Lemma handleSendMessage_blank_is_noop_witness :
  ends offline
       (handleSendMessage
          (app (worldOf (withChatInput (" " ++ LF ++ String (ascii_of_nat 9) " ")%string))))
       (worldOf (withChatInput (" " ++ LF ++ String (ascii_of_nat 9) " ")%string))
       (worldOf (withChatInput (" " ++ LF ++ String (ascii_of_nat 9) " ")%string)) tt.
Proof.
  apply (handleSendMessage_blank_is_noop offline
           (worldOf (withChatInput (" " ++ LF ++ String (ascii_of_nat 9) " ")%string))).
  reflexivity.
Defined.

(** ** Generating a video *)

(** C7.  The operation handle is seen three times: as [generateVideos]
    returns it and as the first and the second status query return it.
    When it is not done the first two times and done the third, with a
    download link that [fetch] serves, the log of the call is the request,
    a wait of five seconds and a query, a second wait and query, and then
    the fetch: two waits come before the fetch, and no fetch before them.
    And however many queries the polling took, when the operation that
    reported done has no download link the result is absent and the log
    holds the request, the waits and the queries, and no fetch. *)
Theorem generateConceptVideo_polls_then_fetches :
  forall (apiKey : string) (env : Provider) (concept : string) (w : World),
    let req := generateVideosRequest concept in
    (forall (op0 op1 op2 : Operation) (link : string)
            (served : FetchResponse) (b : Blob),
        generateVideos env req = inr op0 ->
        JS.truthyb (done op0) = false ->
        getVideosOperation env (polls w) op0 = inr op1 ->
        JS.truthyb (done op1) = false ->
        getVideosOperation env (S (polls w)) op1 = inr op2 ->
        JS.truthyb (done op2) = true ->
        downloadLinkOf op2 = Some link ->
        link <> EmptyString ->
        fetch env link (fetchInit apiKey) = inr served ->
        blob env served = inr b ->
        let before :=
          [Act (GenerateVideos req);
           Act (SetTimeout 5000); Act (GetVideosOperation op0);
           Act (SetTimeout 5000); Act (GetVideosOperation op1)] in
        exists w',
          ends env (generateConceptVideo apiKey concept) w w'
               (inr (Some (createObjectURL env b))) /\
          log w' = log w ++ before ++
            [Act (Fetch link (fetchInit apiKey)); Act (ResponseBlob served);
             Act (CreateObjectURL b)] /\
          filter isTimeout before = [Act (SetTimeout 5000); Act (SetTimeout 5000)] /\
          existsb isFetch before = false)
    /\
    (forall (op0 finished : Operation) (fuel k' : nat) (l : list Action),
        generateVideos env req = inr op0 ->
        pollTrace env fuel (polls w) op0 = Some (k', inr finished, l) ->
        JS.truthy (downloadLinkOf finished) = false ->
        exists w',
          ends env (generateConceptVideo apiKey concept) w w' (inr None) /\
          log w' = log w ++ Act (GenerateVideos req) :: l /\
          existsb isFetch (Act (GenerateVideos req) :: l) = false).
Proof.
  intros apiKey env concept w req. split.
  - intros op0 op1 op2 link served b Hv D0 G0 D1 G1 D2 Hl Hne Hf Hb before.
    assert (P : pollTrace env 2 (polls w) op0
                = Some (S (S (polls w)), inr op2,
                        [Act (SetTimeout 5000); Act (GetVideosOperation op0);
                         Act (SetTimeout 5000); Act (GetVideosOperation op1)])).
    { simpl. rewrite D0, G0, D1, G1, D2. reflexivity. }
    pose proof (generateConceptVideo_ends env apiKey concept w op0 2 _ _ _ Hv P) as H.
    assert (T : JS.truthy (Some link) = true).
    { cbn. apply negb_true_iff. apply String.eqb_neq. exact Hne. }
    unfold afterPolling in H. cbn zeta in H. rewrite Hl, T in H. cbn [negb] in H.
    cbn [JS.toString] in H. rewrite Hf, Hb in H. cbn [fst snd] in H.
    eexists. split; [exact H |]. split; [| split]; reflexivity.
  - intros op0 finished fuel k' l Hv P Hn.
    pose proof (generateConceptVideo_ends env apiKey concept w op0 fuel _ _ _ Hv P) as H.
    unfold afterPolling in H. cbn zeta in H. rewrite Hn in H. cbn in H.
    rewrite app_nil_r in H.
    eexists. split; [exact H |]. split; [reflexivity |].
    cbn. exact (proj2 (pollTrace_quiet env fuel _ _ _ _ _ P)).
Qed.

Lemma generateConceptVideo_polls_then_fetches_witness :
  (exists w',
      ends (videoProvider (Some "https://videos.example/1"))
           (generateConceptVideo "key" "Loops") (worldOf initialState) w'
           (inr (Some "blob:mp4")) /\
      filter isTimeout (log w') = [Act (SetTimeout 5000); Act (SetTimeout 5000)])
  /\
  (exists w',
      ends (videoProvider None)
           (generateConceptVideo "key" "Loops") (worldOf initialState) w'
           (inr None) /\
      existsb isFetch (log w') = false).
Proof.
  split.
  - destruct (proj1 (generateConceptVideo_polls_then_fetches "key"
                       (videoProvider (Some "https://videos.example/1")) "Loops"
                       (worldOf initialState))
                    pendingOperation runningOperation
                    (finishedOperation (Some "https://videos.example/1"))
                    "https://videos.example/1" servedVideo {| bytes := "mp4" |}
                    eq_refl eq_refl eq_refl eq_refl eq_refl eq_refl eq_refl
                    ltac:(discriminate) eq_refl eq_refl)
      as [w' [Hw [Hl _]]].
    exists w'. split; [exact Hw |]. rewrite Hl. reflexivity.
  - destruct (proj2 (generateConceptVideo_polls_then_fetches "key"
                       (videoProvider None) "Loops" (worldOf initialState))
                    pendingOperation (finishedOperation None) 2 2
                    [Act (SetTimeout 5000); Act (GetVideosOperation pendingOperation);
                     Act (SetTimeout 5000); Act (GetVideosOperation runningOperation)]
                    eq_refl eq_refl eq_refl)
      as [w' [Hw [Hl _]]].
    exists w'. split; [exact Hw |]. rewrite Hl. reflexivity.
Defined.

(** ** The busy flag *)

(** The facts about a log that is known entry by entry. *)
Ltac log_facts :=
  repeat match goal with
         | |- _ /\ _ => split
         | |- exists l0, ?l = l0 ++ [_] => exists (removelast l); reflexivity
         | |- exists pre post, ?l = pre ++ Act (SetIsLoading true) :: post /\ _ =>
             exists (beforeBusy l), (afterBusy l); split; reflexivity
         | |- _ => reflexivity
         end.

(** An operation that asks the provider one thing. *)
Ltac one_call Hop Hg :=
  let r0 := fresh "r" in
  let Hr := fresh "Hr" in
  let Ho := fresh "Ho" in
  destruct Hop as [r0 [Hr Ho]];
  destruct (ends_inj _ _ _ _ _ _ _ Hr Hg) as [-> ->];
  subst.

Section BusyFlag.

Variable apiKey : string.
Variable env : Provider.

(** What the theorem says of one flow, from a log known entry by entry:
    [l] is what the flow logged, [calls] what its operation logs, [o] the
    operation's outcome. *)
Lemma discipline_of_log (f : Flow) (w w' : World) (l calls : list Action)
      (o : exn + unit) (r : World -> World) :
  ends env (handlerOf apiKey f (app w)) w w' tt ->
  log w' = log w ++ l ->
  (forall w1, polls w1 = polls w ->
              operationEnds env apiKey f (app w) w1 (r w1) o /\
              log (r w1) = log w1 ++ calls) ->
  (forall w1 w2 o', polls w1 = polls w ->
                    operationEnds env apiKey f (app w) w1 w2 o' ->
                    w2 = r w1 /\ o' = o) ->
  existsb isRemoteCall l = true ->
  callsWhileBusy false l = true ->
  (exists pre post, l = pre ++ Act (SetIsLoading true) :: post /\
                    existsb isRemoteCall pre = false) ->
  isLoading (app w') = false ->
  (exists l0, l = l0 ++ [Act (SetIsLoading false)]) ->
  filter isRemoteCall l = filter isRemoteCall calls ->
  match o with
  | inl e =>
      app w' = with_isLoading false (writes (beforeFirstCall l) (app w)) /\
      filter isSetter (afterFirstCall l) = [Act (SetIsLoading false)] /\
      filter isConsoleError l = [Act (ConsoleError (labelOf f) e)]
  | inr _ => filter isConsoleError l = []
  end ->
  exists w' l,
    ends env (handlerOf apiKey f (app w)) w w' tt /\
    log w' = log w ++ l /\
    existsb isRemoteCall l = true /\
    callsWhileBusy false l = true /\
    (exists pre post, l = pre ++ Act (SetIsLoading true) :: post /\
                      existsb isRemoteCall pre = false) /\
    isLoading (app w') = false /\
    (exists l0, l = l0 ++ [Act (SetIsLoading false)]) /\
    (exists w2 o, operationEnds env apiKey f (app w) w w2 o) /\
    forall w1 w2 o,
      polls w1 = polls w ->
      operationEnds env apiKey f (app w) w1 w2 o ->
      (exists calls, log w2 = log w1 ++ calls /\
                     filter isRemoteCall l = filter isRemoteCall calls) /\
      match o with
      | inl e =>
          app w' = with_isLoading false (writes (beforeFirstCall l) (app w)) /\
          filter isSetter (afterFirstCall l) = [Act (SetIsLoading false)] /\
          filter isConsoleError l = [Act (ConsoleError (labelOf f) e)]
      | inr _ => filter isConsoleError l = []
      end.
Proof.
  intros Hw Hl Hop Hdet H1 H2 H3 H4 H5 H6 H7.
  exists w', l. repeat (split; [assumption |]).
  split; [exists (r w), o; apply (Hop w eq_refl) |].
  intros w1 w2 o' Hp Ho. destruct (Hdet w1 w2 o' Hp Ho) as [-> ->].
  split; [| exact H7].
  exists calls. split; [apply (Hop w1 Hp) | exact H6].
Qed.

End BusyFlag.

Lemma last_two (a x b : Action) (c : list Action) :
  a :: c ++ [x; b] = (a :: c ++ [x]) ++ [b].
Proof. cbn. rewrite <- app_assoc. reflexivity. Qed.

Lemma filter_isConsoleError_quiet (q rest : list Action) :
  forallb quiet q = true ->
  filter isConsoleError (q ++ rest) = filter isConsoleError rest.
Proof.
  induction q as [| a q IH]; cbn; [reflexivity |].
  intros H. apply andb_prop in H. destruct H as [Ha Hq].
  unfold quiet in Ha. destruct (isConsoleError a).
  - rewrite andb_false_r in Ha. discriminate.
  - apply IH. exact Hq.
Qed.

(** C8.  Every flow that calls the provider, when its guard lets it
    through (and, for the video, when the polling comes to an end), ends,
    and in what it logged: there is a remote call; the busy flag is set
    before the first remote call and every remote call is made with the
    flag set; the last entry clears the flag, and the flag is clear in the
    state the flow leaves.  The remote calls logged are those of the
    flow's gateway operation, which does come back.  When the operation
    fails, the state the flow leaves is the state in which the call was
    issued with the flag cleared, the only write after the first call is
    the cleared flag, and the error is given to [console.error] once, with
    the flow's own words; when it succeeds nothing is given to
    [console.error]. *)
Theorem flows_keep_busy_discipline :
  forall (apiKey : string) (env : Provider) (f : Flow) (w : World),
    performsCall env f w ->
    exists w' l,
      ends env (handlerOf apiKey f (app w)) w w' tt /\
      log w' = log w ++ l /\
      existsb isRemoteCall l = true /\
      callsWhileBusy false l = true /\
      (exists pre post, l = pre ++ Act (SetIsLoading true) :: post /\
                        existsb isRemoteCall pre = false) /\
      isLoading (app w') = false /\
      (exists l0, l = l0 ++ [Act (SetIsLoading false)]) /\
      (exists w2 o, operationEnds env apiKey f (app w) w w2 o) /\
      forall w1 w2 o,
        polls w1 = polls w ->
        operationEnds env apiKey f (app w) w1 w2 o ->
        (exists calls, log w2 = log w1 ++ calls /\
                       filter isRemoteCall l = filter isRemoteCall calls) /\
        match o with
        | inl e =>
            app w' = with_isLoading false (writes (beforeFirstCall l) (app w)) /\
            filter isSetter (afterFirstCall l) = [Act (SetIsLoading false)] /\
            filter isConsoleError l = [Act (ConsoleError (labelOf f) e)]
        | inr _ => filter isConsoleError l = []
        end.
Proof.
  intros apiKey env f w Hp. destruct f as [topic | | prompt | | |]; cbn in Hp.
  - (* lesson *)
    destruct (handleGenerateLesson_ends env (app w) topic w) as [w' [Hw Hs]].
    pose proof (fun w1 => generateLesson_ends env topic w1) as Hg.
    cbn zeta in Hs.
    destruct (generateContent env (generateLessonRequest topic)) as [e | response];
      destruct Hs as [Ha Hl];
      [ apply (discipline_of_log apiKey env (LessonFlow topic) w w' _
                 [Act (GenerateContent (generateLessonRequest topic))] (inl e)
                 (record_ (GenerateContent (generateLessonRequest topic))) Hw Hl)
      | apply (discipline_of_log apiKey env (LessonFlow topic) w w' _
                 [Act (GenerateContent (generateLessonRequest topic))] (inr tt)
                 (record_ (GenerateContent (generateLessonRequest topic))) Hw Hl) ];
      try (rewrite Ha); try solve [log_facts];
      try (intros w1 _; split; [eexists; split; [apply Hg | reflexivity] | reflexivity]);
      try (intros w1 w2 o' _ Hop; one_call Hop (Hg w1); split; reflexivity).
  - (* illustration *)
    destruct (handleGenerateIllustration_ends env (app w) w) as [w' [Hw Hs]].
    pose proof (fun w1 => generateConceptImage_ends env (lessonTopic (app w)) w1) as Hg.
    cbn zeta in Hs.
    destruct (imageOutcome _) as [e | img]; destruct Hs as [Ha Hl];
      [ apply (discipline_of_log apiKey env IllustrationFlow w w' _
                 [Act (GenerateContent (generateConceptImageRequest (lessonTopic (app w))))]
                 (inl e)
                 (record_ (GenerateContent (generateConceptImageRequest (lessonTopic (app w)))))
                 Hw Hl)
      | apply (discipline_of_log apiKey env IllustrationFlow w w' _
                 [Act (GenerateContent (generateConceptImageRequest (lessonTopic (app w))))]
                 (inr tt)
                 (record_ (GenerateContent (generateConceptImageRequest (lessonTopic (app w)))))
                 Hw Hl) ];
      try (rewrite Ha); try solve [log_facts];
      try (intros w1 _; split; [eexists; split; [apply Hg | reflexivity] | reflexivity]);
      try (intros w1 w2 o' _ Hop; one_call Hop (Hg w1); split; reflexivity).
  - (* illustration edit *)
    destruct (conceptImage (app w)) as [image |] eqn:Hi; [| discriminate Hp].
    destruct (handleEditIllustration_ends env (app w) prompt image w Hi Hp)
      as [w' [Hw Hs]].
    pose proof (fun w1 => editConceptImage_ends env image prompt w1) as Hg.
    cbn zeta in Hs.
    destruct (imageOutcome _) as [e | img]; destruct Hs as [Ha Hl];
      [ apply (discipline_of_log apiKey env (IllustrationEditFlow prompt) w w' _
                 [Act (GenerateContent (editConceptImageRequest image prompt))]
                 (inl e)
                 (record_ (GenerateContent (editConceptImageRequest image prompt)))
                 Hw Hl)
      | apply (discipline_of_log apiKey env (IllustrationEditFlow prompt) w w' _
                 [Act (GenerateContent (editConceptImageRequest image prompt))]
                 (inr tt)
                 (record_ (GenerateContent (editConceptImageRequest image prompt)))
                 Hw Hl) ];
      try (rewrite Ha); try solve [log_facts];
      try (intros w1 _; cbn; rewrite Hi; cbn;
           split; [eexists; split; [apply Hg | reflexivity] | reflexivity]);
      try (intros w1 w2 o' _ Hop; cbn in Hop; rewrite Hi in Hop; cbn in Hop;
           one_call Hop (Hg w1); split; reflexivity).
  - (* video *)
    destruct (generateVideos env (generateVideosRequest (lessonTopic (app w))))
      as [e | operation] eqn:Hv.
    + destruct (handleGenerateVideo_fails_at_once env apiKey (app w) w e Hv)
        as [w' [Hw [Ha Hl]]].
      pose proof (fun w1 => generateConceptVideo_fails_at_once env apiKey
                              (lessonTopic (app w)) w1 e Hv) as Hg.
      apply (discipline_of_log apiKey env VideoFlow w w' _
               [Act (GenerateVideos (generateVideosRequest (lessonTopic (app w))))]
               (inl e)
               (record_ (GenerateVideos (generateVideosRequest (lessonTopic (app w)))))
               Hw Hl);
        try (rewrite Ha); try solve [log_facts];
        try (intros w1 _; split; [eexists; split; [apply Hg | reflexivity] | reflexivity]);
        try (intros w1 w2 o' _ Hop; one_call Hop (Hg w1); split; reflexivity).
    + destruct Hp as [fuel Hp].
      destruct (pollTrace env fuel (polls w) operation) as [[[k' r] l] |] eqn:P;
        [| contradiction].
      destruct (handleGenerateVideo_ends env apiKey (app w) w operation fuel k' r l Hv P)
        as [w' [Hw Hs]].
      cbn zeta in Hs.
      assert (Hq : forallb quiet (l ++ snd (afterPolling env apiKey r)) = true).
      { rewrite forallb_app, (proj1 (pollTrace_quiet env fuel _ _ _ _ _ P)),
          afterPolling_quiet. reflexivity. }
      assert (Hg : forall w1, polls w1 = polls w ->
                 ends env (generateConceptVideo apiKey (lessonTopic (app w))) w1
                   {| app := app w1;
                      log := log w1 ++
                        Act (GenerateVideos (generateVideosRequest (lessonTopic (app w))))
                        :: l ++ snd (afterPolling env apiKey r);
                      polls := k' |}
                   (fst (afterPolling env apiKey r))).
      { intros w1 Hp1. apply (generateConceptVideo_ends env apiKey _ w1 operation fuel);
          [exact Hv | rewrite Hp1; exact P]. }
      set (calls := Act (GenerateVideos (generateVideosRequest (lessonTopic (app w))))
                      :: l ++ snd (afterPolling env apiKey r)) in *.
      set (rw := fun w1 : World =>
                   {| app := app w1; log := log w1 ++ calls; polls := k' |}).
      destruct (fst (afterPolling env apiKey r)) as [e | videoUrl];
        destruct Hs as [Ha Hl];
        [ apply (discipline_of_log apiKey env VideoFlow w w' _ calls (inl e) rw Hw Hl)
        | apply (discipline_of_log apiKey env VideoFlow w w' _ calls (inr tt) rw Hw Hl) ];
        try (rewrite Ha; reflexivity);
        try (intros w1 Hp1; split;
             [eexists; split; [apply (Hg w1 Hp1) | reflexivity] | reflexivity]);
        try (intros w1 w2 o' Hp1 Hop; one_call Hop (Hg w1 Hp1); split; reflexivity);
        try (exists [], (calls ++ [Act (ConsoleError "Error generating video:" e);
                                   Act (SetIsLoading false)]); split; reflexivity);
        try (exists [], (calls ++ [Act (SetConceptVideo videoUrl);
                                   Act (SetIsLoading false)]); split; reflexivity);
        try (eexists; apply last_two);
        unfold calls; cbn;
        rewrite ?(callsWhileBusy_quiet _ _ Hq), ?(filter_isSetter_quiet _ _ Hq),
          ?(filter_isConsoleError_quiet _ _ Hq), ?filter_app;
        cbn; rewrite ?app_nil_r; try reflexivity.
      rewrite Ha. repeat split.
  - (* analysis *)
    destruct (handleAnalyzeCode_ends env (app w) w) as [w' [Hw Hs]].
    pose proof (fun w1 => analyzeCode_ends env (code (app w)) w1) as Hg.
    cbn zeta in Hs.
    destruct (analysisOutcome _) as [e | result]; destruct Hs as [Ha Hl];
      [ apply (discipline_of_log apiKey env AnalysisFlow w w' _
                 [Act (GenerateContent (analyzeCodeRequest (code (app w))))] (inl e)
                 (record_ (GenerateContent (analyzeCodeRequest (code (app w))))) Hw Hl)
      | apply (discipline_of_log apiKey env AnalysisFlow w w' _
                 [Act (GenerateContent (analyzeCodeRequest (code (app w))))] (inr tt)
                 (record_ (GenerateContent (analyzeCodeRequest (code (app w))))) Hw Hl) ];
      try (rewrite Ha); try solve [log_facts];
      try (intros w1 _; split; [eexists; split; [apply Hg | reflexivity] | reflexivity]);
      try (intros w1 w2 o' _ Hop; one_call Hop (Hg w1); split; reflexivity).
  - (* chat *)
    destruct (handleSendMessage_ends env (app w) w Hp) as [w' [Hw Hs]].
    assert (Hg : forall w1,
               ends env (tutorChat_sendMessage (chatInput (app w))) w1
                    (record_ (ChatSendMessage (chatInput (app w))) w1)
                    (sendMessage env (chatInput (app w)))).
    { intros w1. unfold tutorChat_sendMessage. apply ends_trigger_eq. reflexivity. }
    cbn zeta in Hs.
    destruct (sendMessage env (chatInput (app w))) as [e | response];
      destruct Hs as [Ha Hl];
      [ apply (discipline_of_log apiKey env ChatSendFlow w w' _
                 [Act (ChatSendMessage (chatInput (app w)))] (inl e)
                 (record_ (ChatSendMessage (chatInput (app w)))) Hw Hl)
      | apply (discipline_of_log apiKey env ChatSendFlow w w' _
                 [Act (ChatSendMessage (chatInput (app w)))] (inr tt)
                 (record_ (ChatSendMessage (chatInput (app w)))) Hw Hl) ];
      try (rewrite Ha); try solve [log_facts];
      try (intros w1 _; split; [eexists; split; [apply Hg | reflexivity] | reflexivity]);
      try (intros w1 w2 o' _ Hop; one_call Hop (Hg w1); split; reflexivity).
Qed.

Lemma flows_keep_busy_discipline_witness :
  (exists w' l,
      ends (videoProvider (Some "https://videos.example/1"))
           (handlerOf "key" VideoFlow (app (worldOf initialState)))
           (worldOf initialState) w' tt /\
      log w' = l /\
      existsb isRemoteCall l = true /\
      callsWhileBusy false l = true /\
      isLoading (app w') = false /\
      filter isConsoleError l = [])
  /\
  (exists w' l,
      ends offline
           (handlerOf "key" ChatSendFlow (app (worldOf (withChatInput "What is a list?"))))
           (worldOf (withChatInput "What is a list?")) w' tt /\
      log w' = l /\
      existsb isRemoteCall l = true /\
      callsWhileBusy false l = true /\
      isLoading (app w') = false /\
      app w' = with_isLoading false
                 (writes (beforeFirstCall l) (withChatInput "What is a list?")) /\
      filter isSetter (afterFirstCall l) = [Act (SetIsLoading false)] /\
      filter isConsoleError l
      = [Act (ConsoleError "Error in chat:" (RemoteError "offline"))]).
Proof.
  split.
  - destruct (flows_keep_busy_discipline "key"
                (videoProvider (Some "https://videos.example/1")) VideoFlow
                (worldOf initialState))
      as [w' [l [Hw [Hl [Hc [Hb [_ [Hi [_ [_ Ho]]]]]]]]]].
    { exists 2. cbn. discriminate. }
    exists w', l.
    split; [exact Hw |]. split; [exact Hl |]. split; [exact Hc |].
    split; [exact Hb |]. split; [exact Hi |].
    refine (proj2 (Ho (worldOf initialState) _ (inr tt) eq_refl _)).
    eexists. split; [apply runFor_ends with (fuel := 64); reflexivity | reflexivity].
  - destruct (flows_keep_busy_discipline "key" offline ChatSendFlow
                (worldOf (withChatInput "What is a list?")) eq_refl)
      as [w' [l [Hw [Hl [Hc [Hb [_ [Hi [_ [_ Ho]]]]]]]]]].
    assert (He : operationEnds offline "key" ChatSendFlow
                   (app (worldOf (withChatInput "What is a list?")))
                   (worldOf (withChatInput "What is a list?"))
                   (record_ (ChatSendMessage "What is a list?")
                            (worldOf (withChatInput "What is a list?")))
                   (inl (RemoteError "offline"))).
    { exists (inl (RemoteError "offline")).
      split; [apply runFor_ends with (fuel := 8); reflexivity | reflexivity]. }
    destruct (Ho _ _ _ eq_refl He) as [_ [Ha [Hs Hf]]].
    exists w', l.
    split; [exact Hw |]. split; [exact Hl |]. split; [exact Hc |].
    split; [exact Hb |]. split; [exact Hi |]. split; [exact Ha |].
    split; [exact Hs | exact Hf].
Defined.

(** ** The label of an image *)

Lemma firstInlineImage_relabel (m : option string) (ps : list Part) :
  firstInlineImage (List.map (relabelMime m) ps) = firstInlineImage ps.
Proof.
  induction ps as [| part rest IH]; cbn; [reflexivity |].
  destruct (part_inlineData part); [reflexivity | exact IH].
Qed.

Lemma imageOutcome_relabel (m : option string) (response : GenerateContentResponse) :
  imageOutcome (inr (relabelResponse m response)) = imageOutcome (inr response).
Proof.
  unfold imageOutcome, candidateParts, relabelResponse. cbn.
  destruct (candidates response) as [[| c cs] |]; cbn; try reflexivity.
  destruct (content c) as [ct |]; cbn; [| reflexivity].
  destruct (parts ct) as [ps |]; cbn; [| reflexivity].
  rewrite firstInlineImage_relabel. reflexivity.
Qed.

Lemma imageOutcome_png (answer : exn + GenerateContentResponse) :
  match imageOutcome answer with
  | inr (Some u) => exists d, u = ("data:image/png;base64," ++ d)%string
  | _ => True
  end.
Proof.
  destruct (imageOutcome answer) as [e | [u |]] eqn:E; try exact I.
  unfold imageOutcome in E. destruct answer as [e | response]; [discriminate |].
  destruct (candidateParts response) as [e | ps]; [discriminate |].
  injection E as E. destruct (firstInlineImage_png ps u E) as [d [_ Hu]].
  exists (JS.toString (data d)). exact Hu.
Qed.

(** The loop returns at the first part with inline data, under the label
    of a PNG and with that part's payload, whatever label the part has. *)
Lemma firstInlineImage_first (pre rest : list Part) (payload m t : option string) :
  forallb noInlineData pre = true ->
  firstInlineImage
    (pre ++ {| part_inlineData := Some {| data := payload; mimeType := m |};
               part_text := t |} :: rest)
  = Some ("data:image/png;base64," ++ JS.toString payload)%string.
Proof.
  induction pre as [| part pre IH]; cbn; [reflexivity |].
  unfold noInlineData at 1. destruct (part_inlineData part); cbn;
    [discriminate | exact IH].
Qed.

Lemma imageOutcome_relabelProvider (m : option string) (env : Provider)
      (req : GenerateContentParameters) :
  imageOutcome (generateContent (relabelProvider m env) req)
  = imageOutcome (generateContent env req).
Proof.
  cbn. destruct (generateContent env req) as [e | response]; [reflexivity |].
  apply imageOutcome_relabel.
Qed.

(** C10.  When the first part with inline data in the provider's answer
    has the payload [payload], [generateConceptImage] and
    [editConceptImage] return the data URI made of the label of a PNG and
    that payload, whatever MIME type [m] the part reports; every image
    either of them returns starts with that label; and with a provider
    whose inline parts are relabelled the two functions end as they do
    with the provider itself.  [editConceptImage] submits one request,
    whose inline part is declared as a PNG and holds the piece of the
    input between the first comma and the next: for a data URI, whatever
    its own label, that is its payload. *)
Theorem image_results_are_labelled_png :
  forall (env : Provider) (w : World),
    (forall (concept : string) (response : GenerateContentResponse)
            (pre rest : list Part) (payload m t : option string),
        generateContent env (generateConceptImageRequest concept) = inr response ->
        candidateParts response
        = inr (pre ++ {| part_inlineData := Some {| data := payload; mimeType := m |};
                         part_text := t |} :: rest) ->
        forallb noInlineData pre = true ->
        ends env (generateConceptImage concept) w
             (record_ (GenerateContent (generateConceptImageRequest concept)) w)
             (inr (Some ("data:image/png;base64," ++ JS.toString payload)%string))) /\
    (forall (image prompt : string) (response : GenerateContentResponse)
            (pre rest : list Part) (payload m t : option string),
        generateContent env (editConceptImageRequest image prompt) = inr response ->
        candidateParts response
        = inr (pre ++ {| part_inlineData := Some {| data := payload; mimeType := m |};
                         part_text := t |} :: rest) ->
        forallb noInlineData pre = true ->
        ends env (editConceptImage image prompt) w
             (record_ (GenerateContent (editConceptImageRequest image prompt)) w)
             (inr (Some ("data:image/png;base64," ++ JS.toString payload)%string))) /\
    (forall (concept : string) (w' : World) (u : string),
        ends env (generateConceptImage concept) w w' (inr (Some u)) ->
        exists payload, u = ("data:image/png;base64," ++ payload)%string) /\
    (forall (image prompt : string) (w' : World) (u : string),
        ends env (editConceptImage image prompt) w w' (inr (Some u)) ->
        exists payload, u = ("data:image/png;base64," ++ payload)%string) /\
    (forall (m : option string) (concept : string) (w' : World)
            (r : exn + option string),
        ends env (generateConceptImage concept) w w' r ->
        ends (relabelProvider m env) (generateConceptImage concept) w w' r) /\
    (forall (m : option string) (image prompt : string) (w' : World)
            (r : exn + option string),
        ends env (editConceptImage image prompt) w w' r ->
        ends (relabelProvider m env) (editConceptImage image prompt) w w' r) /\
    (forall image prompt : string,
        exists w' r,
          ends env (editConceptImage image prompt) w w' r /\
          log w' = log w ++ [Act (GenerateContent (editConceptImageRequest image prompt))] /\
          gc_contents (editConceptImageRequest image prompt) =
            ContentsParts
              [ {| part_inlineData :=
                     Some {| data := JS.index (JS.split "," image) 1;
                             mimeType := Some "image/png" |};
                   part_text := None |};
                {| part_inlineData := None; part_text := Some prompt |} ]) /\
    (forall meta payload prompt : string,
        hasComma meta = false -> hasComma payload = false ->
        gc_contents (editConceptImageRequest (meta ++ "," ++ payload) prompt) =
          ContentsParts
            [ {| part_inlineData :=
                   Some {| data := Some payload; mimeType := Some "image/png" |};
                 part_text := None |};
              {| part_inlineData := None; part_text := Some prompt |} ]).
Proof.
  intros env w. repeat match goal with |- _ /\ _ => split end.
  - intros concept response pre rest payload m t Hg Hc Hn.
    pose proof (generateConceptImage_ends env concept w) as H.
    unfold imageOutcome in H.
    rewrite Hg, Hc, (firstInlineImage_first pre rest payload m t Hn) in H. exact H.
  - intros image prompt response pre rest payload m t Hg Hc Hn.
    pose proof (editConceptImage_ends env image prompt w) as H.
    unfold imageOutcome in H.
    rewrite Hg, Hc, (firstInlineImage_first pre rest payload m t Hn) in H. exact H.
  - intros concept w' u H.
    destruct (ends_inj _ _ _ _ _ _ _ H (generateConceptImage_ends env concept w))
      as [_ Hr].
    pose proof (imageOutcome_png
                  (generateContent env (generateConceptImageRequest concept))) as Hu.
    rewrite <- Hr in Hu. exact Hu.
  - intros image prompt w' u H.
    destruct (ends_inj _ _ _ _ _ _ _ H (editConceptImage_ends env image prompt w))
      as [_ Hr].
    pose proof (imageOutcome_png
                  (generateContent env (editConceptImageRequest image prompt))) as Hu.
    rewrite <- Hr in Hu. exact Hu.
  - intros m concept w' r H.
    destruct (ends_inj _ _ _ _ _ _ _ H (generateConceptImage_ends env concept w))
      as [-> ->].
    rewrite <- (imageOutcome_relabelProvider m env).
    apply generateConceptImage_ends.
  - intros m image prompt w' r H.
    destruct (ends_inj _ _ _ _ _ _ _ H (editConceptImage_ends env image prompt w))
      as [-> ->].
    rewrite <- (imageOutcome_relabelProvider m env).
    apply editConceptImage_ends.
  - intros image prompt. eexists. eexists.
    split; [apply editConceptImage_ends |]. split; reflexivity.
  - intros meta payload prompt Hm Hp. unfold editConceptImageRequest.
    cbn [gc_contents]. rewrite (split_data_uri_shape meta payload Hm Hp).
    reflexivity.
Qed.

Lemma image_results_are_labelled_png_witness :
  ends jpegProvider
       (generateConceptImage "Loops")
       (worldOf initialState)
       (record_ (GenerateContent (generateConceptImageRequest "Loops"))
                (worldOf initialState))
       (inr (Some "data:image/png;base64,BBBB"%string)) /\
  ends jpegProvider
       (editConceptImage "data:image/jpeg;base64,AAAA" "Add a retro filter")
       (worldOf initialState)
       (record_ (GenerateContent
                   (editConceptImageRequest "data:image/jpeg;base64,AAAA"
                                            "Add a retro filter"))
                (worldOf initialState))
       (inr (Some "data:image/png;base64,BBBB"%string)) /\
  gc_contents (editConceptImageRequest "data:image/jpeg;base64,AAAA"
                                       "Add a retro filter") =
    ContentsParts
      [ {| part_inlineData :=
             Some {| data := Some "AAAA"%string; mimeType := Some "image/png"%string |};
           part_text := None |};
        {| part_inlineData := None; part_text := Some "Add a retro filter"%string |} ].
Proof.
  pose proof (image_results_are_labelled_png jpegProvider (worldOf initialState))
    as [Hgen [Hedit [_ [_ [_ [_ [_ Hreq]]]]]]].
  split; [| split].
  - exact (Hgen "Loops"%string
                (partsResponse [imagePart "image/jpeg" "BBBB"]) [] []
                (Some "BBBB"%string) (Some "image/jpeg"%string) None
                eq_refl eq_refl eq_refl).
  - exact (Hedit "data:image/jpeg;base64,AAAA"%string "Add a retro filter"%string
                 (partsResponse [imagePart "image/jpeg" "BBBB"]) [] []
                 (Some "BBBB"%string) (Some "image/jpeg"%string) None
                 eq_refl eq_refl eq_refl).
  - exact (Hreq "data:image/jpeg;base64"%string "AAAA"%string
                "Add a retro filter"%string eq_refl eq_refl).
Defined.

(** ** Examples *)

(** An escape beyond Latin-1 is one code unit of the string; a surrogate
    pair is two. *)
Example parse_escape_of_an_arrow :
  JSONParse.parse
    ("{" ++ quoted "explanation" ++ ":" ++ quoted "loop \u2192 list" ++ "}")%string
  = Some (JObject [(unitsOf "explanation",
                    JString (unitsOf "loop " ++ [8594%N] ++ unitsOf " list"))]).
Proof. vm_compute. reflexivity. Qed.

Example parse_surrogate_pair :
  JSONParse.parse (quoted "\uD83D\uDE00") = Some (JString [55357%N; 56832%N]).
Proof. vm_compute. reflexivity. Qed.

Example analyzeCode_returns_the_arrow :
  runFor (answering
            (inr (textResponse
                    ("{" ++ quoted "explanation" ++ ":"
                         ++ quoted "loop \u2192 list" ++ "}")%string)))
         8 (analyzeCode "x = 1") (worldOf initialState)
  = Some (record_ (GenerateContent (analyzeCodeRequest "x = 1")) (worldOf initialState),
          inr (JObject [(unitsOf "explanation",
                         JString (unitsOf "loop " ++ [8594%N] ++ unitsOf " list"))])).
Proof. vm_compute. reflexivity. Qed.

Example parse_object :
  JSONParse.parse
    ("{ " ++ quoted "explanation" ++ ": " ++ quoted "prints x" ++ ", "
          ++ quoted "bugs" ++ ": [], " ++ quoted "n" ++ ": -1.5e3, "
          ++ quoted "ok" ++ ": [true, null] }")%string
  = Some (JObject [(unitsOf "explanation", JString (unitsOf "prints x"));
                   (unitsOf "bugs", JArray []);
                   (unitsOf "n", JNumber "-1.5e3");
                   (unitsOf "ok", JArray [JBool true; JNull])]).
Proof. reflexivity. Qed.

Example parse_rejects_undefined : JSONParse.parse (JS.toString None) = None.
Proof. reflexivity. Qed.

Example parse_rejects_trailing_text : JSONParse.parse "{} x" = None.
Proof. reflexivity. Qed.

Example split_data_uri :
  JS.split "," "data:image/png;base64,AAAA" = ["data:image/png;base64"; "AAAA"].
Proof. reflexivity. Qed.

Example split_no_comma : JS.index (JS.split "," "AAAA") 1 = None.
Proof. reflexivity. Qed.

Example trim_spaces : JS.trim "  a b  " = "a b"%string.
Proof. reflexivity. Qed.

(** The scenarios of the spec, computed. *)

Example lesson_on_loops :
  option_map (fun end_ => (currentLesson (app (fst end_)), lessonTopic (app (fst end_))))
             (runFor (answering (inr (textResponse "# Loops"))) 24
                     (handleGenerateLesson initialState "Loops")
                     (worldOf initialState))
  = Some (Some "# Loops"%string, "Loops"%string).
Proof. vm_compute. reflexivity. Qed.

Example video_after_two_waits :
  option_map (fun end_ => (log (fst end_), snd end_))
             (runFor (videoProvider (Some "https://videos.example/1"%string)) 40
                     (generateConceptVideo "key" "Loops") (worldOf initialState))
  = Some ([Act (GenerateVideos (generateVideosRequest "Loops"));
           Act (SetTimeout 5000); Act (GetVideosOperation pendingOperation);
           Act (SetTimeout 5000); Act (GetVideosOperation runningOperation);
           Act (Fetch "https://videos.example/1" (fetchInit "key"));
           Act (ResponseBlob servedVideo);
           Act (CreateObjectURL {| bytes := "mp4" |})],
          inr (Some "blob:mp4"%string)).
Proof. vm_compute. reflexivity. Qed.

Example edit_without_illustration :
  runFor offline 4 (handleEditIllustration initialState "Add a retro filter")
         (worldOf initialState)
  = Some (worldOf initialState, tt).
Proof. vm_compute. reflexivity. Qed.

Example chat_offline :
  option_map (fun end_ => (chatMessages (app (fst end_)), isLoading (app (fst end_))))
             (runFor offline 24 (handleSendMessage (withChatInput "What is a list?"))
                     (worldOf (withChatInput "What is a list?")))
  = Some ([ {| role := user; msg_text := "What is a list?" |} ], false).
Proof. vm_compute. reflexivity. Qed.

(** * More facts *)

(** ** The computed run and the run agree *)

Lemma forced_of_ret {R} (t : itree void1 R) (v : R) :
  t ≈ Ret v -> exists n, forced n t = Some v.
Proof.
  intros H. punfold H. red in H. cbn in H.
  remember (observe t) as ot eqn:Hot. remember (RetF v) as rv eqn:Hrv.
  revert t Hot. induction H; intros t0 Hot; try discriminate.
  - injection Hrv as Hv. subst. exists 0. cbn. rewrite <- Hot. reflexivity.
  - destruct (IHeqitF Hrv t1 eq_refl) as [n Hn].
    exists (S n). cbn. rewrite <- Hot. exact Hn.
Qed.

Lemma forced_eq_itree {R} (n : nat) :
  forall t1 t2 : itree void1 R, t1 ≅ t2 -> forced n t1 = forced n t2.
Proof.
  induction n as [| n IH]; intros t1 t2 H; apply eqit_inv in H; cbn in *;
    unfold observe;
    destruct (_observe t1) as [r1 | u1 | X1 e1 k1];
    destruct (_observe t2) as [r2 | u2 | X2 e2 k2];
    try contradiction; try (destruct e1); try (destruct e2);
    try (subst; reflexivity).
  apply IH. exact H.
Qed.

Section Adequacy.

Variable env : Provider.

Lemma forced_run {R} (n : nat) :
  forall (t : itree appE R) (w : World) (x : World * R),
    forced n (run env t w) = Some x -> runFor env (S n) t w = Some x.
Proof.
  induction n as [| n IH]; intros t w x H; unfold run in H;
    rewrite (forced_eq_itree _ _ _ (unfold_interp_state (handle env) t w)) in H;
    cbn [runFor]; destruct (observe t) as [r | t' | X e k]; cbn in H.
  - exact H.
  - discriminate.
  - destruct (step env e w) as [w1 a]. cbn in H. discriminate.
  - exact H.
  - apply IH. exact H.
  - destruct (step env e w) as [w1 a]. cbn in H. apply IH. exact H.
Qed.

(** Every run that ends is computed by [runFor] with enough fuel. *)
Lemma ends_runFor {R} (t : itree appE R) (w w' : World) (r : R) :
  ends env t w w' r -> exists fuel, runFor env fuel t w = Some (w', r).
Proof.
  intros H. destruct (forced_of_ret _ _ H) as [n Hn].
  exists (S n). apply forced_run. exact Hn.
Qed.

Lemma ends_bind_inv {A B} (t : itree appE A) (k : A -> itree appE B)
      (w w2 : World) (b : B) :
  ends env (ITree.bind t k) w w2 b ->
  exists w1 a, ends env t w w1 a /\ ends env (k a) w1 w2 b.
Proof.
  unfold ends, run. intros H. rewrite interp_state_bind in H.
  apply eutt_inv_bind_ret in H. destruct H as [[w1 a] [Ht Hk]].
  exists w1, a. split; [exact Ht | exact Hk].
Qed.

Lemma runFor_observe {R} (fuel : nat) (t1 t2 : itree appE R) (w : World) :
  observe t1 = observe t2 -> runFor env fuel t1 w = runFor env fuel t2 w.
Proof. intros H. destruct fuel; cbn; [reflexivity | rewrite H; reflexivity]. Qed.

End Adequacy.

(** ** Polling that never ends *)

Section PollingForever.

Variable env : Provider.

Hypothesis never_done :
  forall k operation, exists operation',
    getVideosOperation env k operation = inr operation' /\
    JS.truthyb (done operation') = false.

Lemma observe_pollUntilDone (operation : Operation) :
  observe (pollUntilDone operation)
  = observe (ITree.bind (pollOnce operation)
               (fun lr => match lr with
                          | inl l => Tau (pollUntilDone l)
                          | inr r => Ret r
                          end)).
Proof. reflexivity. Qed.

Lemma pollUntilDone_runFor_none (n : nat) :
  forall (fuel : nat) (operation : Operation) (w : World),
    fuel <= n -> JS.truthyb (done operation) = false ->
    runFor env fuel (pollUntilDone operation) w = None.
Proof.
  induction n as [| n IH]; intros fuel operation w Hle D.
  - replace fuel with 0 by lia. reflexivity.
  - destruct fuel as [| fuel]; [reflexivity |].
    rewrite (runFor_observe env _ _ _ w (observe_pollUntilDone operation)).
    unfold pollOnce. rewrite D. cbn.
    destruct fuel as [| fuel]; [reflexivity |]. cbn.
    destruct (never_done (polls w) operation) as [operation' [G D']].
    rewrite G.
    destruct fuel as [| fuel]; [reflexivity |]. cbn.
    apply IH; [lia | exact D'].
Qed.

Lemma pollUntilDone_never_ends (operation : Operation) (w : World) :
  JS.truthyb (done operation) = false ->
  ~ exists w' r, ends env (pollUntilDone operation) w w' r.
Proof.
  intros D [w' [r H]]. destruct (ends_runFor env _ _ _ _ H) as [fuel Hf].
  rewrite (pollUntilDone_runFor_none fuel fuel operation w (le_n _) D) in Hf.
  discriminate.
Qed.

End PollingForever.

(** ** The session run *)

Lemma runSessionFor_ends (env : Provider) {R} (fuel : nat) :
  forall (t : itree (appE +' transcribeE) R) (ss ss' : Session) (r : R),
    runSessionFor env fuel t ss = Some (ss', r) -> endsSession env t ss ss' r.
Proof.
  induction fuel as [| fuel IH]; intros t ss ss' r H; cbn in H; [discriminate |].
  unfold endsSession. rewrite (itree_eta t).
  destruct (observe t) as [r0 | t' | X e k].
  - injection H as <- <-. rewrite interp_state_ret. reflexivity.
  - rewrite interp_state_tau, tau_eutt. apply IH. exact H.
  - rewrite interp_state_vis. unfold handleSession at 1. rewrite bind_ret_l.
    destruct (stepSession env e ss) as [ss1 x]. cbn. rewrite tau_eutt.
    apply IH. exact H.
Qed.

(** ** More on logs and parts *)

Lemma firstInlineImage_skips (pre l : list Part) :
  forallb noInlineData pre = true ->
  firstInlineImage (pre ++ l) = firstInlineImage l.
Proof.
  induction pre as [| part pre IH]; cbn; [reflexivity |].
  unfold noInlineData at 1. destruct (part_inlineData part); cbn;
    [discriminate | exact IH].
Qed.

Lemma pollTrace_shape (env : Provider) (fuel : nat) :
  forall k operation k' r l,
    pollTrace env fuel k operation = Some (k', r, l) ->
    filter isTimeout l = repeat (Act (SetTimeout 5000)) (k' - k) /\
    List.length (filter isStatusQuery l) = k' - k /\
    k <= k'.
Proof.
  induction fuel as [| fuel IH]; intros k operation k' r l H; cbn in H.
  - destruct (JS.truthyb (done operation)); [| discriminate].
    injection H as <- <- <-. rewrite Nat.sub_diag. repeat split; auto.
  - destruct (JS.truthyb (done operation)).
    + injection H as <- <- <-. rewrite Nat.sub_diag. repeat split; auto.
    + destruct (getVideosOperation env k operation) as [e | operation'].
      * injection H as <- <- <-.
        replace (S k - k) with 1 by lia. repeat split; auto.
      * destruct (pollTrace env fuel (S k) operation') as [[[k1 r1] l1] |] eqn:P;
          [| discriminate].
        injection H as <- <- <-. destruct (IH _ _ _ _ _ P) as [Ht [Hq Hk]].
        replace (k1 - k) with (S (k1 - S k)) by lia. cbn.
        rewrite Ht, Hq. repeat split; auto. lia.
Qed.

Lemma afterPolling_shape (env : Provider) (apiKey : string) (r : exn + Operation) :
  filter isTimeout (snd (afterPolling env apiKey r)) = [] /\
  filter isStatusQuery (snd (afterPolling env apiKey r)) = [].
Proof.
  unfold afterPolling. destruct r as [e | operation]; [split; reflexivity |].
  cbn zeta. destruct (negb (JS.truthy (downloadLinkOf operation)));
    [split; reflexivity |].
  destruct (fetch env _ _) as [e | served]; [split; reflexivity |].
  destruct (blob env served); split; reflexivity.
Qed.

Lemma split_after_meta (meta s : string) :
  hasComma meta = false ->
  JS.split "," (meta ++ "," ++ s)%string = meta :: JS.split "," s.
Proof.
  intros Hm. induction meta as [| c r IH]; cbn; [reflexivity |].
  cbn in Hm. apply orb_false_elim in Hm. destruct Hm as [Hc Hr].
  rewrite Hc. cbn in IH. rewrite (IH Hr). reflexivity.
Qed.

Lemma split_nonempty (s : string) : JS.split "," s <> [].
Proof.
  destruct s as [| c r]; cbn; [discriminate |].
  destruct (Ascii.eqb c ","); [discriminate |].
  destruct (JS.split "," r); discriminate.
Qed.

(** * More properties *)

(** ** Illustrations *)

(** X1.  With no illustration stored (absent, or the empty string), the
    edit handler ends in the world it started in: nothing is written and
    no call is made. *)
Theorem handleEditIllustration_without_illustration :
  forall (env : Provider) (w : World) (prompt : string),
    JS.truthy (conceptImage (app w)) = false ->
    ends env (handleEditIllustration (app w) prompt) w w tt.
Proof.
  intros env w prompt H. apply handleEditIllustration_guard. exact H.
Qed.

Lemma handleEditIllustration_without_illustration_witness :
  ends jpegProvider (handleEditIllustration (app (worldOf (withIllustration ""))) "Add a retro filter")
       (worldOf (withIllustration "")) (worldOf (withIllustration "")) tt.
Proof.
  apply (handleEditIllustration_without_illustration jpegProvider
           (worldOf (withIllustration "")) "Add a retro filter").
  reflexivity.
Defined.

(** X2.  When the provider rejects the image request, or answers without
    candidate parts (no candidates, an empty list of them, a first
    candidate without content, or content without parts), the illustration
    flow keeps the stored illustration, passes the error to the console
    (a [TypeError] when the provider did answer) and clears the busy
    flag. *)
Theorem handleGenerateIllustration_failure_keeps_image :
  forall (env : Provider) (w : World),
    let req := generateConceptImageRequest (lessonTopic (app w)) in
    (exists e, generateContent env req = inl e) \/
    (exists response,
        generateContent env req = inr response /\
        (candidates response = None \/
         candidates response = Some [] \/
         exists c cs, candidates response = Some (c :: cs) /\
                      (content c = None \/
                       exists ct, content c = Some ct /\ parts ct = None))) ->
    exists w' e,
      ends env (handleGenerateIllustration (app w)) w w' tt /\
      conceptImage (app w') = conceptImage (app w) /\
      isLoading (app w') = false /\
      log w' = log w ++
        [Act (SetIsLoading true); Act (GenerateContent req);
         Act (ConsoleError "Error generating image:" e);
         Act (SetIsLoading false)] /\
      (forall response, generateContent env req = inr response -> e = TypeError).
Proof.
  intros env w req H.
  destruct (handleGenerateIllustration_ends env (app w) w) as [w' [Hw Hs]].
  cbn zeta in Hs. fold req in Hs.
  assert (Ho : exists e, imageOutcome (generateContent env req) = inl e /\
                         (forall response, generateContent env req = inr response ->
                                           e = TypeError)).
  { destruct H as [[e He] | [response [Hr Hc]]].
    - exists e. rewrite He. split; [reflexivity |]. intros response Hr. discriminate Hr.
    - exists TypeError. rewrite Hr. split; [| reflexivity].
      unfold imageOutcome, candidateParts.
      destruct Hc as [Hc | [Hc | [c [cs [Hc Hd]]]]]; rewrite Hc; cbn; try reflexivity.
      destruct Hd as [Hd | [ct [Hd Hp]]]; rewrite Hd; [reflexivity |].
      rewrite Hp. reflexivity. }
  destruct Ho as [e [Ho He]]. rewrite Ho in Hs. destruct Hs as [Ha Hl].
  exists w', e. split; [exact Hw |]. rewrite Ha.
  split; [reflexivity |]. split; [reflexivity |]. split; [exact Hl | exact He].
Qed.

Lemma handleGenerateIllustration_failure_keeps_image_witness :
  exists w',
    ends (answering (inr (textResponse "no image today")))
         (handleGenerateIllustration
            (app (worldOf (withIllustration "data:image/png;base64,AAAA"))))
         (worldOf (withIllustration "data:image/png;base64,AAAA")) w' tt /\
    conceptImage (app w') = Some "data:image/png;base64,AAAA"%string.
Proof.
  destruct (handleGenerateIllustration_failure_keeps_image
              (answering (inr (textResponse "no image today")))
              (worldOf (withIllustration "data:image/png;base64,AAAA"))
              (or_intror (ex_intro _ (textResponse "no image today")
                                   (conj eq_refl (or_introl eq_refl)))))
    as [w' [e [Hw [Hi _]]]].
  exists w'. split; [exact Hw | exact Hi].
Defined.

(** X3.  When the provider answers the image request with parts of which
    none has inline data, the illustration flow stores the absent value:
    an illustration that was on screen is lost, and nothing is reported
    as an error. *)
Theorem handleGenerateIllustration_no_image_part :
  forall (env : Provider) (w : World) (response : GenerateContentResponse)
         (ps : list Part),
    let req := generateConceptImageRequest (lessonTopic (app w)) in
    generateContent env req = inr response ->
    candidateParts response = inr ps ->
    forallb noInlineData ps = true ->
    exists w',
      ends env (handleGenerateIllustration (app w)) w w' tt /\
      conceptImage (app w') = None /\
      log w' = log w ++
        [Act (SetIsLoading true); Act (GenerateContent req);
         Act (SetConceptImage None); Act (SetIsLoading false)].
Proof.
  intros env w response ps req Hr Hc Hn.
  destruct (handleGenerateIllustration_ends env (app w) w) as [w' [Hw Hs]].
  cbn zeta in Hs. fold req in Hs. unfold imageOutcome in Hs.
  rewrite Hr, Hc in Hs.
  assert (Hf : firstInlineImage ps = None).
  { rewrite <- (app_nil_r ps). rewrite (firstInlineImage_skips ps [] Hn). reflexivity. }
  rewrite Hf in Hs. destruct Hs as [Ha Hl].
  exists w'. split; [exact Hw |]. rewrite Ha. split; [reflexivity | exact Hl].
Qed.

Lemma handleGenerateIllustration_no_image_part_witness :
  exists w',
    ends wordsProvider
         (handleGenerateIllustration
            (app (worldOf (withIllustration "data:image/png;base64,AAAA"))))
         (worldOf (withIllustration "data:image/png;base64,AAAA")) w' tt /\
    conceptImage (app w') = None.
Proof.
  destruct (handleGenerateIllustration_no_image_part wordsProvider
              (worldOf (withIllustration "data:image/png;base64,AAAA"))
              (partsResponse [textPart "I cannot edit this image."])
              [textPart "I cannot edit this image."]
              eq_refl eq_refl eq_refl) as [w' [Hw [Hi _]]].
  exists w'. split; [exact Hw | exact Hi].
Defined.

(** X4.  [generateConceptImage] returns the first part that has inline
    data, whatever comes before it without inline data and whatever comes
    after it.  When that part carries no data, the URI it returns ends in
    the word undefined. *)
Theorem generateConceptImage_first_inline_part :
  forall (env : Provider) (w : World) (concept : string)
         (response : GenerateContentResponse) (pre rest : list Part)
         (part : Part) (d : InlineData),
    generateContent env (generateConceptImageRequest concept) = inr response ->
    candidateParts response = inr (pre ++ part :: rest) ->
    forallb noInlineData pre = true ->
    part_inlineData part = Some d ->
    ends env (generateConceptImage concept) w
         (record_ (GenerateContent (generateConceptImageRequest concept)) w)
         (inr (Some match data d with
                    | Some payload => ("data:image/png;base64," ++ payload)%string
                    | None => "data:image/png;base64,undefined"%string
                    end)).
Proof.
  intros env w concept response pre rest part d Hr Hc Hn Hd.
  pose proof (generateConceptImage_ends env concept w) as H.
  unfold imageOutcome in H. rewrite Hr, Hc in H.
  rewrite (firstInlineImage_skips pre (part :: rest) Hn) in H.
  cbn in H. rewrite Hd in H. destruct (data d); exact H.
Qed.

Lemma generateConceptImage_first_inline_part_witness :
  ends (answering
          (inr (partsResponse
                  [textPart "Here is your diagram.";
                   {| part_inlineData := Some {| data := None; mimeType := Some "image/png"%string |};
                      part_text := None |};
                   imagePart "image/png" "CCCC"])))
       (generateConceptImage "Loops") (worldOf initialState)
       (record_ (GenerateContent (generateConceptImageRequest "Loops"))
                (worldOf initialState))
       (inr (Some "data:image/png;base64,undefined"%string)).
Proof.
  apply (generateConceptImage_first_inline_part
           (answering
              (inr (partsResponse
                      [textPart "Here is your diagram.";
                       {| part_inlineData := Some {| data := None; mimeType := Some "image/png"%string |};
                          part_text := None |};
                       imagePart "image/png" "CCCC"])))
           (worldOf initialState) "Loops"
           (partsResponse
              [textPart "Here is your diagram.";
               {| part_inlineData := Some {| data := None; mimeType := Some "image/png"%string |};
                  part_text := None |};
               imagePart "image/png" "CCCC"])
           [textPart "Here is your diagram."] [imagePart "image/png" "CCCC"]
           {| part_inlineData := Some {| data := None; mimeType := Some "image/png"%string |};
              part_text := None |}
           {| data := None; mimeType := Some "image/png"%string |}
           eq_refl eq_refl eq_refl eq_refl).
Defined.

(** X5.  [editConceptImage] submits the piece of its input between the
    first comma and the second: what follows a second comma is dropped
    from the payload. *)
Theorem editConceptImage_payload_stops_at_second_comma :
  forall (meta piece tail prompt : string),
    hasComma meta = false ->
    hasComma piece = false ->
    gc_contents (editConceptImageRequest (meta ++ "," ++ piece ++ "," ++ tail)%string prompt) =
      ContentsParts
        [ {| part_inlineData := Some {| data := Some piece; mimeType := Some "image/png"%string |};
             part_text := None |};
          {| part_inlineData := None; part_text := Some prompt |} ].
Proof.
  intros meta piece tail prompt Hm Hp. unfold editConceptImageRequest.
  cbn [gc_contents].
  rewrite (split_after_meta meta _ Hm), (split_after_meta piece _ Hp).
  reflexivity.
Qed.

Lemma editConceptImage_payload_stops_at_second_comma_witness :
  gc_contents (editConceptImageRequest "data:text/plain,a,b" "Add a retro filter") =
    ContentsParts
      [ {| part_inlineData := Some {| data := Some "a"%string; mimeType := Some "image/png"%string |};
           part_text := None |};
        {| part_inlineData := None; part_text := Some "Add a retro filter"%string |} ].
Proof.
  apply (editConceptImage_payload_stops_at_second_comma
           "data:text/plain" "a" "b" "Add a retro filter"); reflexivity.
Defined.

(** ** Chat *)

(** X6.  When the input passes the guard and the tutor answers, the
    transcript gains the user turn and then the model turn; the user turn
    and the message sent are the input as typed, white space included; the
    model turn is the answer's text, or the words No response when the
    text is absent or empty; the input field is emptied and the busy flag
    cleared. *)
Theorem handleSendMessage_success :
  forall (env : Provider) (w : World) (response : GenerateContentResponse),
    JS.truthy (Some (JS.trim (chatInput (app w)))) = true ->
    sendMessage env (chatInput (app w)) = inr response ->
    let userMsg := {| role := user; msg_text := chatInput (app w) |} in
    let reply :=
      {| role := model;
         msg_text := match text response with
                     | Some t => if (t =? "")%string then "No response"%string else t
                     | None => "No response"%string
                     end |} in
    exists w', ends env (handleSendMessage (app w)) w w' tt /\
      chatMessages (app w') = chatMessages (app w) ++ [userMsg; reply] /\
      chatInput (app w') = EmptyString /\
      isLoading (app w') = false /\
      filter isRemoteCall (skipn (List.length (log w)) (log w'))
      = [Act (ChatSendMessage (chatInput (app w)))].
Proof.
  intros env w response Hg Hr userMsg reply.
  destruct (handleSendMessage_ends env (app w) w Hg) as [w' [Hw Hs]].
  cbn zeta in Hs. rewrite Hr in Hs. destruct Hs as [Ha Hl].
  exists w'. split; [exact Hw |]. rewrite Ha, Hl.
  split; [| split; [reflexivity | split; [reflexivity |]]].
  - cbn. unfold reply, userMsg, JS.orElse, JS.truthy, JS.toString.
    destruct (text response) as [t |]; [destruct (t =? "")%string |]; reflexivity.
  - rewrite skipn_app, Nat.sub_diag, skipn_all. reflexivity.
Qed.

Lemma handleSendMessage_success_witness :
  exists w',
    ends (tutoring (inr (textResponse "")))
         (handleSendMessage (app (worldOf (withChatInput " What is a list? "))))
         (worldOf (withChatInput " What is a list? ")) w' tt /\
    chatMessages (app w')
    = [ {| role := user; msg_text := " What is a list? " |};
        {| role := model; msg_text := "No response" |} ].
Proof.
  destruct (handleSendMessage_success (tutoring (inr (textResponse "")))
              (worldOf (withChatInput " What is a list? ")) (textResponse "")
              eq_refl eq_refl) as [w' [Hw [Hc _]]].
  exists w'. split; [exact Hw | exact Hc].
Defined.

(** X7.  Whatever the input and whatever the tutor does, a send ends, and
    the transcript it leaves is the one it found with at most two turns
    added at its end; when a turn was added the first is the user's, and
    the input field is empty. *)
Theorem handleSendMessage_appends_only :
  forall (env : Provider) (w : World),
    exists w' added,
      ends env (handleSendMessage (app w)) w w' tt /\
      chatMessages (app w') = chatMessages (app w) ++ added /\
      List.length added <= 2 /\
      match added with
      | [] => w' = w
      | first :: _ =>
          first = {| role := user; msg_text := chatInput (app w) |} /\
          chatInput (app w') = EmptyString
      end.
Proof.
  intros env w.
  destruct (JS.truthy (Some (JS.trim (chatInput (app w))))) eqn:Hg.
  - destruct (handleSendMessage_ends env (app w) w Hg) as [w' [Hw Hs]].
    cbn zeta in Hs.
    destruct (sendMessage env (chatInput (app w))) as [e | response];
      destruct Hs as [Ha _]; exists w'; eexists;
      (split; [exact Hw |]); rewrite Ha; cbn;
      (split; [reflexivity |]); cbn; (split; [lia |]); split; reflexivity.
  - exists w, []. split; [apply handleSendMessage_guard; exact Hg |].
    rewrite app_nil_r. cbn. repeat split. lia.
Qed.

(** ** Code analysis *)

(** X8.  The analysis flow always ends with the busy flag clear.  When the
    provider rejects the call, or its text is not JSON, the stored
    analysis is the one that was there and the error went to the console;
    when the text parses, the stored analysis is the parsed value. *)
Theorem handleAnalyzeCode_outcome :
  forall (env : Provider) (w : World),
    let req := analyzeCodeRequest (code (app w)) in
    exists w', ends env (handleAnalyzeCode (app w)) w w' tt /\
      isLoading (app w') = false /\
      match generateContent env req with
      | inl e =>
          analysis (app w') = analysis (app w) /\
          filter isConsoleError (log w')
          = filter isConsoleError (log w)
              ++ [Act (ConsoleError "Error analyzing code:" e)]
      | inr response =>
          match JSONParse.parse (JS.toString (text response)) with
          | None =>
              analysis (app w') = analysis (app w) /\
              filter isConsoleError (log w')
              = filter isConsoleError (log w)
                  ++ [Act (ConsoleError "Error analyzing code:" SyntaxError)]
          | Some v =>
              analysis (app w') = Some v /\
              filter isConsoleError (log w') = filter isConsoleError (log w)
          end
      end.
Proof.
  intros env w req.
  destruct (handleAnalyzeCode_ends env (app w) w) as [w' [Hw Hs]].
  exists w'. split; [exact Hw |]. cbn zeta in Hs. fold req in Hs.
  unfold analysisOutcome in Hs.
  destruct (generateContent env req) as [e | response];
    [| destruct (JSONParse.parse (JS.toString (text response)))];
    destruct Hs as [Ha Hl]; rewrite Ha, Hl, filter_app; cbn;
    rewrite ?app_nil_r; repeat split; reflexivity.
Qed.

(** ** The first lesson *)

(** X9.  The effect does nothing unless the view is the lessons view and
    no lesson is stored: on any other view, or with a lesson on screen,
    it ends in the world it started in. *)
Theorem lessonsEffect_idle :
  forall (env : Provider) (w : World) (view : View),
    view <> lessons \/ JS.truthy (currentLesson (app w)) = true ->
    ends env (lessonsEffect view (app w)) w w tt.
Proof.
  intros env w view H. unfold lessonsEffect.
  destruct H as [H | H].
  - destruct view; try (exfalso; apply H; reflexivity); apply ends_ret.
  - rewrite H, andb_false_r. apply ends_ret.
Qed.

Lemma lessonsEffect_idle_witness :
  ends offline (lessonsEffect lessons (app (worldOf (withLesson "# Loops"))))
       (worldOf (withLesson "# Loops")) (worldOf (withLesson "# Loops")) tt.
Proof.
  apply (lessonsEffect_idle offline (worldOf (withLesson "# Loops")) lessons).
  right. reflexivity.
Defined.

(** X10.  On the lessons view with no lesson stored, the effect requests
    the lesson Introduction to Python.  When the request fails the lesson
    is still missing, so the effect will request it again the next time
    the view is entered; when it brings a text that is not empty, the
    effect run again on the state it left does nothing. *)
Theorem lessonsEffect_first_lesson :
  forall (env : Provider) (w : World),
    JS.truthy (currentLesson (app w)) = false ->
    let req := generateLessonRequest "Introduction to Python" in
    exists w', ends env (lessonsEffect lessons (app w)) w w' tt /\
      filter isRemoteCall (skipn (List.length (log w)) (log w'))
      = [Act (GenerateContent req)] /\
      match generateContent env req with
      | inl _ =>
          JS.truthy (currentLesson (app w')) = false /\
          lessonTopic (app w') = lessonTopic (app w)
      | inr response =>
          currentLesson (app w') = text response /\
          lessonTopic (app w') = "Introduction to Python"%string /\
          (JS.truthy (text response) = true ->
           ends env (lessonsEffect lessons (app w')) w' w' tt)
      end.
Proof.
  intros env w Hn req. unfold lessonsEffect at 1. rewrite Hn. cbn [isLessons negb andb].
  destruct (handleGenerateLesson_ends env (app w) "Introduction to Python" w)
    as [w' [Hw Hs]].
  exists w'. split; [exact Hw |]. cbn zeta in Hs. fold req in Hs.
  destruct (generateContent env req) as [e | response]; destruct Hs as [Ha Hl].
  - rewrite Hl, skipn_app, Nat.sub_diag, skipn_all, Ha. cbn.
    split; [reflexivity |]. split; [exact Hn | reflexivity].
  - rewrite Hl, skipn_app, Nat.sub_diag, skipn_all. cbn.
    split; [reflexivity |]. rewrite Ha. cbn.
    split; [reflexivity |]. split; [reflexivity |].
    intros Ht. unfold lessonsEffect. cbn. rewrite Ht. apply ends_ret.
Qed.

Lemma lessonsEffect_first_lesson_witness :
  exists w',
    ends (answering (inr (textResponse "# Welcome")))
         (lessonsEffect lessons (app (worldOf initialState)))
         (worldOf initialState) w' tt /\
    currentLesson (app w') = Some "# Welcome"%string.
Proof.
  destruct (lessonsEffect_first_lesson (answering (inr (textResponse "# Welcome")))
              (worldOf initialState) eq_refl) as [w' [Hw [_ [Hc _]]]].
  exists w'. split; [exact Hw | exact Hc].
Defined.

(** X11.  A lesson request that succeeds with an absent or empty text
    stores that text all the same and switches the topic: a lesson that
    was on screen is lost, and the guard of the effect holds again, so
    that entering the lessons view requests the introduction. *)
Theorem handleGenerateLesson_empty_text :
  forall (env : Provider) (w : World) (topic : string)
         (response : GenerateContentResponse),
    generateContent env (generateLessonRequest topic) = inr response ->
    JS.truthy (text response) = false ->
    exists w', ends env (handleGenerateLesson (app w) topic) w w' tt /\
      JS.truthy (currentLesson (app w')) = false /\
      lessonTopic (app w') = topic /\
      filter isConsoleError (skipn (List.length (log w)) (log w')) = [] /\
      exists w'' rest,
        ends env (lessonsEffect lessons (app w')) w' w'' tt /\
        log w'' = log w' ++
          [Act (SetIsLoading true); Act (SetConceptImage None);
           Act (SetConceptVideo None);
           Act (GenerateContent (generateLessonRequest "Introduction to Python"))]
          ++ rest.
Proof.
  intros env w topic response Hr Ht.
  destruct (handleGenerateLesson_ends env (app w) topic w) as [w' [Hw Hs]].
  cbn zeta in Hs. rewrite Hr in Hs. destruct Hs as [Ha Hl].
  exists w'. split; [exact Hw |].
  assert (Hc : JS.truthy (currentLesson (app w')) = false)
    by (rewrite Ha; exact Ht).
  split; [exact Hc |]. split; [rewrite Ha; reflexivity |].
  split; [rewrite Hl, skipn_app, Nat.sub_diag, skipn_all; reflexivity |].
  destruct (handleGenerateLesson_ends env (app w') "Introduction to Python" w')
    as [w'' [Hw' Hs']].
  cbn zeta in Hs'.
  exists w''.
  destruct (generateContent env (generateLessonRequest "Introduction to Python"));
    destruct Hs' as [_ Hl']; eexists;
    (split; [unfold lessonsEffect; rewrite Hc; exact Hw' | rewrite Hl'; reflexivity]).
Qed.

Lemma handleGenerateLesson_empty_text_witness :
  exists w',
    ends (answering (inr (textResponse "")))
         (handleGenerateLesson (app (worldOf (withLesson "# Loops"))) "Classes")
         (worldOf (withLesson "# Loops")) w' tt /\
    JS.truthy (currentLesson (app w')) = false /\
    lessonTopic (app w') = "Classes"%string.
Proof.
  destruct (handleGenerateLesson_empty_text (answering (inr (textResponse "")))
              (worldOf (withLesson "# Loops")) "Classes" (textResponse "")
              eq_refl eq_refl) as [w' [Hw [Hc [Ht _]]]].
  exists w'. split; [exact Hw |]. split; [exact Hc | exact Ht].
Defined.

(** ** Videos *)

(** X12.  In every run of [generateConceptVideo] whose polling comes to an
    end, each status query is preceded by one wait of five seconds and
    there is no other wait: the waits are as many as the queries.  An
    operation that is done when [generateVideos] returns it is neither
    waited for nor queried. *)
Theorem generateConceptVideo_waits_once_per_query :
  forall (apiKey : string) (env : Provider) (concept : string) (w : World)
         (op0 : Operation) (fuel k' : nat) (r : exn + Operation)
         (l : list Action),
    generateVideos env (generateVideosRequest concept) = inr op0 ->
    pollTrace env fuel (polls w) op0 = Some (k', r, l) ->
    exists w' result added,
      ends env (generateConceptVideo apiKey concept) w w' result /\
      log w' = log w ++ added /\
      filter isTimeout added = repeat (Act (SetTimeout 5000)) (k' - polls w) /\
      List.length (filter isStatusQuery added) = k' - polls w /\
      (JS.truthyb (done op0) = true -> k' - polls w = 0).
Proof.
  intros apiKey env concept w op0 fuel k' r l Hv P.
  pose proof (generateConceptVideo_ends env apiKey concept w op0 fuel k' r l Hv P) as H.
  destruct (pollTrace_shape env fuel _ _ _ _ _ P) as [Ht [Hq _]].
  destruct (afterPolling_shape env apiKey r) as [At Aq].
  eexists. eexists. eexists. split; [exact H |]. cbn [log].
  split; [reflexivity |]. cbn. rewrite !filter_app, At, Aq, !app_nil_r.
  split; [exact Ht |]. split; [exact Hq |].
  intros D. destruct fuel; cbn in P; rewrite D in P; injection P as <- _ _; lia.
Qed.

Lemma generateConceptVideo_waits_once_per_query_witness :
  exists w' result added,
    ends (promptProvider (Some "https://videos.example/1"%string))
         (generateConceptVideo "key" "Loops") (worldOf initialState) w' result /\
    log w' = log (worldOf initialState) ++ added /\
    filter isTimeout added = [].
Proof.
  destruct (generateConceptVideo_waits_once_per_query "key"
              (promptProvider (Some "https://videos.example/1"%string)) "Loops"
              (worldOf initialState)
              (finishedOperation (Some "https://videos.example/1"%string))
              0 0 (inr (finishedOperation (Some "https://videos.example/1"%string))) []
              eq_refl eq_refl)
    as [w' [result [added [Hw [Hl [Ht _]]]]]].
  exists w', result, added. split; [exact Hw |]. split; [exact Hl | exact Ht].
Defined.

(** X13.  When [generateVideos] rejects, or a status query rejects, the
    video flow keeps the stored video, passes the error to the console,
    clears the busy flag and fetches nothing. *)
Theorem handleGenerateVideo_request_failure :
  forall (apiKey : string) (env : Provider) (w : World) (e : exn),
    let req := generateVideosRequest (lessonTopic (app w)) in
    generateVideos env req = inl e \/
    (exists op0 fuel k' l,
        generateVideos env req = inr op0 /\
        pollTrace env fuel (polls w) op0 = Some (k', inl e, l)) ->
    exists w' calls,
      ends env (handleGenerateVideo apiKey (app w)) w w' tt /\
      conceptVideo (app w') = conceptVideo (app w) /\
      isLoading (app w') = false /\
      log w' = log w ++ Act (SetIsLoading true) :: calls ++
        [Act (ConsoleError "Error generating video:" e); Act (SetIsLoading false)] /\
      forallb quiet calls = true /\
      existsb isFetch calls = false.
Proof.
  intros apiKey env w e req [Hv | [op0 [fuel [k' [l [Hv P]]]]]].
  - destruct (handleGenerateVideo_fails_at_once env apiKey (app w) w e Hv)
      as [w' [Hw [Ha Hl]]].
    exists w', [Act (GenerateVideos req)]. split; [exact Hw |].
    rewrite Ha. split; [reflexivity |]. split; [reflexivity |].
    split; [exact Hl |]. split; reflexivity.
  - destruct (handleGenerateVideo_ends env apiKey (app w) w op0 fuel k' (inl e) l Hv P)
      as [w' [Hw Hs]].
    cbn in Hs. destruct Hs as [Ha Hl]. rewrite app_nil_r in Hl.
    destruct (pollTrace_quiet env fuel _ _ _ _ _ P) as [Hq Hf].
    exists w', (Act (GenerateVideos req) :: l). split; [exact Hw |].
    rewrite Ha. split; [reflexivity |]. split; [reflexivity |].
    split; [exact Hl |]. split; cbn; assumption.
Qed.

Lemma handleGenerateVideo_request_failure_witness :
  exists w',
    ends flakyProvider
         (handleGenerateVideo "key" (app (worldOf (withVideo "blob:old"))))
         (worldOf (withVideo "blob:old")) w' tt /\
    conceptVideo (app w') = Some "blob:old"%string.
Proof.
  destruct (handleGenerateVideo_request_failure "key" flakyProvider
              (worldOf (withVideo "blob:old")) (RemoteError "offline")
              (or_intror
                 (ex_intro _ pendingOperation
                    (ex_intro _ 1
                       (ex_intro _ 1
                          (ex_intro _
                             [Act (SetTimeout 5000);
                              Act (GetVideosOperation pendingOperation)]
                             (conj eq_refl eq_refl)))))))
    as [w' [calls [Hw [Hc _]]]].
  exists w'. split; [exact Hw | exact Hc].
Defined.

(** X14.  When the operation is reported done and carries no download
    link, the video flow stores the absent value: a video that was on
    screen is lost, nothing is fetched and nothing is reported as an
    error. *)
Theorem handleGenerateVideo_no_link_clears_video :
  forall (apiKey : string) (env : Provider) (w : World)
         (op0 finished : Operation) (fuel k' : nat) (l : list Action),
    let req := generateVideosRequest (lessonTopic (app w)) in
    generateVideos env req = inr op0 ->
    pollTrace env fuel (polls w) op0 = Some (k', inr finished, l) ->
    JS.truthy (downloadLinkOf finished) = false ->
    exists w',
      ends env (handleGenerateVideo apiKey (app w)) w w' tt /\
      conceptVideo (app w') = None /\
      isLoading (app w') = false /\
      log w' = log w ++ Act (SetIsLoading true) :: Act (GenerateVideos req) :: l ++
        [Act (SetConceptVideo None); Act (SetIsLoading false)] /\
      existsb isFetch l = false.
Proof.
  intros apiKey env w op0 finished fuel k' l req Hv P Hn.
  destruct (handleGenerateVideo_ends env apiKey (app w) w op0 fuel k' (inr finished) l Hv P)
    as [w' [Hw Hs]].
  unfold afterPolling in Hs. cbn zeta in Hs. rewrite Hn in Hs. cbn in Hs.
  destruct Hs as [Ha Hl]. rewrite app_nil_r in Hl.
  exists w'. split; [exact Hw |]. rewrite Ha.
  split; [reflexivity |]. split; [reflexivity |]. split; [exact Hl |].
  exact (proj2 (pollTrace_quiet env fuel _ _ _ _ _ P)).
Qed.

Lemma handleGenerateVideo_no_link_clears_video_witness :
  exists w',
    ends (promptProvider None)
         (handleGenerateVideo "key" (app (worldOf (withVideo "blob:old"))))
         (worldOf (withVideo "blob:old")) w' tt /\
    conceptVideo (app w') = None.
Proof.
  destruct (handleGenerateVideo_no_link_clears_video "key" (promptProvider None)
              (worldOf (withVideo "blob:old"))
              (finishedOperation None) (finishedOperation None) 0 0 []
              eq_refl eq_refl eq_refl) as [w' [Hw [Hc _]]].
  exists w'. split; [exact Hw | exact Hc].
Defined.

(** X15.  When the operation is done with a download link and the fetch
    of the link rejects, or reading its body rejects, the video flow keeps
    the stored video, passes the error to the console and makes no object
    URL. *)
Theorem handleGenerateVideo_download_failure :
  forall (apiKey : string) (env : Provider) (w : World)
         (op0 finished : Operation) (fuel k' : nat) (l : list Action)
         (link : string) (e : exn),
    let req := generateVideosRequest (lessonTopic (app w)) in
    generateVideos env req = inr op0 ->
    pollTrace env fuel (polls w) op0 = Some (k', inr finished, l) ->
    downloadLinkOf finished = Some link ->
    link <> EmptyString ->
    fetch env link (fetchInit apiKey) = inl e \/
    (exists served, fetch env link (fetchInit apiKey) = inr served /\
                    blob env served = inl e) ->
    exists w' calls,
      ends env (handleGenerateVideo apiKey (app w)) w w' tt /\
      conceptVideo (app w') = conceptVideo (app w) /\
      isLoading (app w') = false /\
      log w' = log w ++ Act (SetIsLoading true) :: Act (GenerateVideos req) :: l ++
        Act (Fetch link (fetchInit apiKey)) :: calls ++
        [Act (ConsoleError "Error generating video:" e); Act (SetIsLoading false)] /\
      (calls = [] \/ exists served, calls = [Act (ResponseBlob served)]).
Proof.
  intros apiKey env w op0 finished fuel k' l link e req Hv P Hl Hne Hd.
  destruct (handleGenerateVideo_ends env apiKey (app w) w op0 fuel k' (inr finished) l Hv P)
    as [w' [Hw Hs]].
  assert (T : JS.truthy (Some link) = true).
  { cbn. apply negb_true_iff. apply String.eqb_neq. exact Hne. }
  unfold afterPolling in Hs. cbn zeta in Hs. rewrite Hl, T in Hs.
  cbn [negb JS.toString] in Hs.
  destruct Hd as [Hf | [served [Hf Hb]]]; rewrite Hf in Hs; [| rewrite Hb in Hs];
    cbn [fst snd] in Hs; destruct Hs as [Ha Hlog].
  - exists w', []. split; [exact Hw |]. rewrite Ha.
    split; [reflexivity |]. split; [reflexivity |].
    split; [| left; reflexivity].
    rewrite Hlog. cbn. rewrite <- !app_assoc. reflexivity.
  - exists w', [Act (ResponseBlob served)]. split; [exact Hw |]. rewrite Ha.
    split; [reflexivity |]. split; [reflexivity |].
    split; [| right; exists served; reflexivity].
    rewrite Hlog. cbn. rewrite <- !app_assoc. reflexivity.
Qed.

Lemma handleGenerateVideo_download_failure_witness :
  exists w',
    ends unservedProvider
         (handleGenerateVideo "key" (app (worldOf (withVideo "blob:old"))))
         (worldOf (withVideo "blob:old")) w' tt /\
    conceptVideo (app w') = Some "blob:old"%string.
Proof.
  destruct (handleGenerateVideo_download_failure "key" unservedProvider
              (worldOf (withVideo "blob:old"))
              (finishedOperation (Some "https://videos.example/1"%string))
              (finishedOperation (Some "https://videos.example/1"%string))
              0 0 [] "https://videos.example/1" (RemoteError "offline")
              eq_refl eq_refl eq_refl ltac:(discriminate) (or_introl eq_refl))
    as [w' [calls [Hw [Hc _]]]].
  exists w'. split; [exact Hw | exact Hc].
Defined.

(** X16.  The polling has no bound: with a provider whose operation is
    never done and whose status queries never fail, [generateConceptVideo]
    does not return, and the video flow does not end, so that its busy
    flag is never cleared. *)
Theorem generateConceptVideo_polls_forever :
  forall (apiKey : string) (env : Provider) (w : World) (concept : string)
         (op0 : Operation),
    generateVideos env (generateVideosRequest concept) = inr op0 ->
    JS.truthyb (done op0) = false ->
    (forall k operation, exists operation',
        getVideosOperation env k operation = inr operation' /\
        JS.truthyb (done operation') = false) ->
    ~ (exists w' r, ends env (generateConceptVideo apiKey concept) w w' r) /\
    (lessonTopic (app w) = concept ->
     ~ (exists w', ends env (handleGenerateVideo apiKey (app w)) w w' tt)).
Proof.
  intros apiKey env w concept op0 Hv D Hn.
  assert (G : forall w0, ~ (exists w' r,
                ends env (generateConceptVideo apiKey concept) w0 w' r)).
  { intros w0 [w' [r H]]. unfold generateConceptVideo, await in H.
    apply ends_bind_inv in H. destruct H as [w1 [a [Ht Hk]]].
    destruct (ends_inj env _ _ _ _ _ _ Ht (ends_trigger env _ w0)) as [_ Ha].
    cbn in Ha. rewrite Hv in Ha. subst a.
    apply ends_bind_inv in Hk. destruct Hk as [w2 [a [Hp _]]].
    apply (pollUntilDone_never_ends env Hn op0 w1 D). exists w2, a. exact Hp. }
  split; [apply G |].
  intros Hc [w' H]. unfold handleGenerateVideo, try_catch_finally in H.
  apply ends_bind_inv in H. destruct H as [w1 [a [_ H]]].
  apply ends_bind_inv in H. destruct H as [w2 [b [H _]]].
  unfold await in H. apply ends_bind_inv in H. destruct H as [w3 [c [H _]]].
  rewrite Hc in H. apply (G w1). exists w3, c. exact H.
Qed.

Lemma generateConceptVideo_polls_forever_witness :
  runFor stuckProvider 200 (generateConceptVideo "key" "Loops") (worldOf initialState)
  = None /\
  ~ (exists w' r, ends stuckProvider (generateConceptVideo "key" "Loops")
                       (worldOf initialState) w' r).
Proof.
  split; [vm_compute; reflexivity |].
  apply (generateConceptVideo_polls_forever "key" stuckProvider
           (worldOf initialState) "Loops" pendingOperation eq_refl eq_refl).
  intros k operation. exists runningOperation. split; reflexivity.
Defined.

(** ** The simulated transcription *)

(** X17.  The transcription always ends: it waits two seconds once, makes
    no remote call, leaves the transcribing flag clear, and replaces
    whatever was typed in the chat input by its canned question; nothing
    else of the state changes, the busy flag included. *)
Theorem handleTranscribe_types_the_canned_question :
  forall (env : Provider) (ss : Session),
    exists ss',
      endsSession env handleTranscribe ss ss' (inr tt) /\
      isTranscribing ss' = false /\
      app (world ss') = with_chatInput cannedQuestion (app (world ss)) /\
      log (world ss') = log (world ss) ++
        [Act (SetTimeout 2000); Act (SetChatInput cannedQuestion)] /\
      polls (world ss') = polls (world ss).
Proof.
  intros env ss. eexists. split.
  - apply (runSessionFor_ends env 8). reflexivity.
  - cbn. rewrite <- app_assoc. repeat split.
Qed.

(** X18.  A send that follows a transcription sends the canned question,
    whatever the input was before: the question passes the guard, it is
    the user turn appended to the transcript and the message given to the
    tutor. *)
Theorem transcribe_then_send :
  forall (env : Provider) (ss : Session),
    exists ss' w'' rest,
      endsSession env handleTranscribe ss ss' (inr tt) /\
      ends env (handleSendMessage (app (world ss'))) (world ss') w'' tt /\
      chatMessages (app w'')
      = chatMessages (app (world ss))
          ++ {| role := user; msg_text := cannedQuestion |} :: rest /\
      filter isRemoteCall (skipn (List.length (log (world ss))) (log w''))
      = [Act (ChatSendMessage cannedQuestion)].
Proof.
  intros env ss.
  destruct (handleTranscribe_types_the_canned_question env ss)
    as [ss' [Ht [_ [Ha [Hl _]]]]].
  assert (Hg : JS.truthy (Some (JS.trim (chatInput (app (world ss'))))) = true)
    by (rewrite Ha; reflexivity).
  destruct (handleSendMessage_ends env (app (world ss')) (world ss') Hg)
    as [w'' [Hw Hs]].
  cbn zeta in Hs.
  assert (Hi : chatInput (app (world ss')) = cannedQuestion)
    by (rewrite Ha; reflexivity).
  assert (Hm : chatMessages (app (world ss')) = chatMessages (app (world ss)))
    by (rewrite Ha; reflexivity).
  rewrite Hi, Hm in Hs.
  exists ss', w''.
  destruct (sendMessage env cannedQuestion) as [e | response];
    destruct Hs as [Hb Hc]; eexists;
    (split; [exact Ht |]); (split; [exact Hw |]);
    rewrite Hb, Hc, Hl, <- app_assoc, skipn_app, Nat.sub_diag, skipn_all;
    cbn; split; reflexivity.
Qed.

(** ** Flows one after the other *)


(** X20.  What the illustration flow stores, the edit flow sends back: when
    the provider's first inline part carries a payload with no comma in
    it, the illustration stored is the data URI of that payload, and an
    edit that follows submits that same payload, in one request. *)
Theorem illustrate_then_edit_round_trip :
  forall (env : Provider) (w : World) (prompt payload : string)
         (response : GenerateContentResponse) (pre rest : list Part)
         (part : Part) (d : InlineData),
    generateContent env (generateConceptImageRequest (lessonTopic (app w)))
    = inr response ->
    candidateParts response = inr (pre ++ part :: rest) ->
    forallb noInlineData pre = true ->
    part_inlineData part = Some d ->
    data d = Some payload ->
    hasComma payload = false ->
    let uri := ("data:image/png;base64," ++ payload)%string in
    exists w' w'',
      ends env (handleGenerateIllustration (app w)) w w' tt /\
      conceptImage (app w') = Some uri /\
      ends env (handleEditIllustration (app w') prompt) w' w'' tt /\
      filter isRemoteCall (skipn (List.length (log w')) (log w''))
      = [Act (GenerateContent (editConceptImageRequest uri prompt))] /\
      gc_contents (editConceptImageRequest uri prompt) =
        ContentsParts
          [ {| part_inlineData :=
                 Some {| data := Some payload; mimeType := Some "image/png"%string |};
               part_text := None |};
            {| part_inlineData := None; part_text := Some prompt |} ].
Proof.
  intros env w prompt payload response pre rest part d Hr Hc Hn Hd Hp Hcomma uri.
  destruct (handleGenerateIllustration_ends env (app w) w) as [w' [Hw Hs]].
  cbn zeta in Hs. unfold imageOutcome in Hs. rewrite Hr, Hc in Hs.
  rewrite (firstInlineImage_skips pre (part :: rest) Hn) in Hs.
  cbn [firstInlineImage] in Hs. rewrite Hd, Hp in Hs. cbn [JS.toString] in Hs.
  fold uri in Hs. destruct Hs as [Ha _].
  assert (Hi : conceptImage (app w') = Some uri) by (rewrite Ha; reflexivity).
  destruct (handleEditIllustration_ends env (app w') prompt uri w' Hi eq_refl)
    as [w'' [Hw' Hs']].
  exists w', w''. split; [exact Hw |]. split; [exact Hi |]. split; [exact Hw' |].
  split.
  - cbn zeta in Hs'.
    destruct (imageOutcome _); destruct Hs' as [_ Hl];
      rewrite Hl, skipn_app, Nat.sub_diag, skipn_all; reflexivity.
  - unfold editConceptImageRequest. cbn [gc_contents]. unfold uri.
    change ("data:image/png;base64," ++ payload)%string
      with ("data:image/png;base64" ++ "," ++ payload)%string.
    rewrite (split_data_uri_shape "data:image/png;base64" payload eq_refl Hcomma).
    reflexivity.
Qed.

Lemma illustrate_then_edit_round_trip_witness :
  exists w' w'',
    ends jpegProvider (handleGenerateIllustration (app (worldOf initialState)))
         (worldOf initialState) w' tt /\
    conceptImage (app w') = Some "data:image/png;base64,BBBB"%string /\
    ends jpegProvider (handleEditIllustration (app w') "Add a retro filter") w' w'' tt.
Proof.
  destruct (illustrate_then_edit_round_trip jpegProvider (worldOf initialState)
              "Add a retro filter" "BBBB"
              (partsResponse [imagePart "image/jpeg" "BBBB"])
              [] [] (imagePart "image/jpeg" "BBBB")
              {| data := Some "BBBB"%string; mimeType := Some "image/jpeg"%string |}
              eq_refl eq_refl eq_refl eq_refl eq_refl eq_refl)
    as [w' [w'' [Hw [Hi [He _]]]]].
  exists w', w''. split; [exact Hw |]. split; [exact Hi | exact He].
Defined.
